(** * The tournament store of caro-ai-pvp

    A shallow embedding of the TypeScript module that
    [src/frontend/write_store.py] writes to
    [src/lib/stores/tournamentStore.svelte.ts]: the status and difficulty
    normalizers, the records of the dashboard state, the push-event handlers,
    the clock tick, the snapshot fetch, the three commands and the connection
    life cycle.

    Conventions of the embedding:
    - a JavaScript [number] that holds a count, a rating, a coordinate or a
      number of milliseconds is a [Z];
    - [T | null] and an optional field are [option T];
    - an [async] method is a function of the store that also receives what the
      outside world answered (the HTTP reply, whether the hub started, the
      current time) and returns the new store together with a [completion]:
      the promise resolved, or it rejected with an error;
    - [console.error] appends to the [console] field of the store. *)

From Stdlib Require Import ZArith List String Bool Lia DecimalString.
From Stdlib Require Import Sorting.Sorted Sorting.Permutation.
Import ListNotations.

Local Open Scope string_scope.
Local Open Scope Z_scope.

(** ** JavaScript operators used by the module *)

(** [a ?? d]: the default replaces only a missing value. *)
Definition nullish {A : Type} (a : option A) (d : A) : A :=
  match a with
  | Some v => v
  | None => d
  end.

(** [s || d] on an optional string: missing and empty are both falsy. *)
Definition or_string (s : option string) (d : string) : string :=
  match s with
  | Some v => if String.eqb v "" then d else v
  | None => d
  end.

(** [s || null] on an optional string. *)
Definition or_null (s : option string) : option string :=
  match s with
  | Some v => if String.eqb v "" then None else Some v
  | None => None
  end.

(** [n || 0] on an optional number. *)
Definition or_zero (n : option Z) : Z := nullish n 0.

(** [b || false] on an optional boolean. *)
Definition or_false (b : option bool) : bool := nullish b false.

(** [l || []] on an optional array. *)
Definition or_empty {A : Type} (l : option (list A)) : list A := nullish l [].

(** An object literal with numeric keys, and [obj[k]]. *)
Fixpoint index {A : Type} (obj : list (Z * A)) (k : Z) : option A :=
  match obj with
  | [] => None
  | (k', v) :: rest => if Z.eqb k' k then Some v else index rest k
  end.

(** [n.toString()] for an integral number. *)
Definition number_to_string (n : Z) : string :=
  NilZero.string_of_int (Z.to_int n).

(** [Array.prototype.sort(cmp)]: the order is the one of a stable sort, an
    element moves in front of another only when [cmp] is positive for the
    pair taken in array order. *)
Section JsSort.
Context {A : Type} (cmp : A -> A -> Z).

Fixpoint sort_insert (a : A) (sorted : list A) : list A :=
  match sorted with
  | [] => [a]
  | b :: rest =>
      if cmp a b <=? 0 then a :: b :: rest else b :: sort_insert a rest
  end.

Fixpoint js_sort (l : list A) : list A :=
  match l with
  | [] => []
  | a :: rest => sort_insert a (js_sort rest)
  end.
End JsSort.

(** [arr.slice(0, n)] *)
Definition slice0 {A : Type} (n : nat) (arr : list A) : list A := firstn n arr.

(** ** Wire values and the two normalizers *)

(** [number | string] *)
Inductive NumberOrString : Type :=
| Num (n : Z)
| Str (s : string).

Definition statusMap : list (Z * string) :=
  [(0, "idle"); (1, "running"); (2, "paused"); (3, "completed")].

Definition mapStatusFromBackend (status : NumberOrString) : string :=
  match status with
  | Str s => s
  | Num n => nullish (index statusMap n) "idle"
  end.

Definition diffMap : list (Z * string) :=
  [(1, "beginner"); (2, "easy"); (3, "normal"); (4, "medium"); (5, "hard");
   (6, "harder"); (7, "veryHard"); (8, "expert"); (9, "master");
   (10, "grandmaster"); (11, "legend")].

Definition mapDifficultyFromBackend (diff : NumberOrString) : string :=
  match diff with
  | Str s => s
  | Num n => nullish (index diffMap n) "beginner"
  end.

(** The members of the union types [TournamentStatus] and [AIDifficulty]. *)
Definition TournamentStatus_values : list string :=
  ["idle"; "running"; "paused"; "completed"].

Definition AIDifficulty_values : list string :=
  ["beginner"; "easy"; "normal"; "medium"; "hard"; "harder"; "veryHard";
   "expert"; "master"; "grandmaster"; "legend"].

(** ** The data model *)

Record BoardCell : Type := mkBoardCell {
  x : Z;
  y : Z;
  player : string
}.

Record AIBot : Type := mkAIBot {
  name : string;
  difficulty : string;
  elo : Z;
  wins : Z;
  losses : Z;
  draws : Z;
  gamesPlayed : Z;
  winRate : Z
}.

Record EngineStats : Type := mkEngineStats {
  depthAchieved : Z;
  nodesSearched : Z;
  nodesPerSecond : Z;
  tableHitRate : Z;
  ponderingActive : bool;
  vcfDepthAchieved : Z;
  vcfNodesSearched : Z
}.

Record CurrentMatchInfo : Type := mkCurrentMatchInfo {
  gameId : string;
  redBotName : string;
  blueBotName : string;
  redDifficulty : string;
  blueDifficulty : string;
  moveNumber : Z;
  board : list BoardCell;
  redTimeRemainingMs : Z;
  blueTimeRemainingMs : Z;
  initialTimeSeconds : Z;
  incrementSeconds : Z;
  lastMove : option (Z * Z);
  lastMoveTimestamp : Z;
  lastMoveStats : option EngineStats
}.

Record TournamentProgress : Type := mkTournamentProgress {
  completed : Z;
  total : Z;
  percent : Z
}.

Record MatchResult : Type := mkMatchResult {
  winner : string;
  loser : string;
  totalMoves : Z;
  durationMs : Z;
  winnerDifficulty : string;
  loserDifficulty : string;
  isDraw : bool;
  endedByTimeout : bool;
  winnerBotName : option string;
  loserBotName : option string
}.

Inductive ConnectionState : Type :=
| disconnected
| connecting
| connected
| reconnecting.

Record TournamentState : Type := mkTournamentState {
  status : string;
  progress : TournamentProgress;
  bots : list AIBot;
  matchHistory : list MatchResult;
  currentMatch : option CurrentMatchInfo;
  startTimeUtc : string;
  endTimeUtc : option string;
  elapsed : string;
  connectionState : ConnectionState;
  errorMessage : option string
}.

(** The value the class gives to [state] when the store is constructed. *)
Definition initial_state : TournamentState :=
  {| status := "idle";
     progress := mkTournamentProgress 0 0 0;
     bots := [];
     matchHistory := [];
     currentMatch := None;
     startTimeUtc := "";
     endTimeUtc := None;
     elapsed := "";
     connectionState := disconnected;
     errorMessage := None |}.

(** Assignments to one field of [this.state]. *)
Definition set_status (v : string) (s : TournamentState) : TournamentState :=
  mkTournamentState v (progress s) (bots s) (matchHistory s) (currentMatch s)
    (startTimeUtc s) (endTimeUtc s) (elapsed s) (connectionState s)
    (errorMessage s).

Definition set_progress (v : TournamentProgress) (s : TournamentState)
  : TournamentState :=
  mkTournamentState (status s) v (bots s) (matchHistory s) (currentMatch s)
    (startTimeUtc s) (endTimeUtc s) (elapsed s) (connectionState s)
    (errorMessage s).

Definition set_bots (v : list AIBot) (s : TournamentState) : TournamentState :=
  mkTournamentState (status s) (progress s) v (matchHistory s) (currentMatch s)
    (startTimeUtc s) (endTimeUtc s) (elapsed s) (connectionState s)
    (errorMessage s).

Definition set_matchHistory (v : list MatchResult) (s : TournamentState)
  : TournamentState :=
  mkTournamentState (status s) (progress s) (bots s) v (currentMatch s)
    (startTimeUtc s) (endTimeUtc s) (elapsed s) (connectionState s)
    (errorMessage s).

Definition set_currentMatch (v : option CurrentMatchInfo) (s : TournamentState)
  : TournamentState :=
  mkTournamentState (status s) (progress s) (bots s) (matchHistory s) v
    (startTimeUtc s) (endTimeUtc s) (elapsed s) (connectionState s)
    (errorMessage s).

Definition set_startTimeUtc (v : string) (s : TournamentState)
  : TournamentState :=
  mkTournamentState (status s) (progress s) (bots s) (matchHistory s)
    (currentMatch s) v (endTimeUtc s) (elapsed s) (connectionState s)
    (errorMessage s).

Definition set_endTimeUtc (v : option string) (s : TournamentState)
  : TournamentState :=
  mkTournamentState (status s) (progress s) (bots s) (matchHistory s)
    (currentMatch s) (startTimeUtc s) v (elapsed s) (connectionState s)
    (errorMessage s).

Definition set_elapsed (v : string) (s : TournamentState) : TournamentState :=
  mkTournamentState (status s) (progress s) (bots s) (matchHistory s)
    (currentMatch s) (startTimeUtc s) (endTimeUtc s) v (connectionState s)
    (errorMessage s).

Definition set_connectionState (v : ConnectionState) (s : TournamentState)
  : TournamentState :=
  mkTournamentState (status s) (progress s) (bots s) (matchHistory s)
    (currentMatch s) (startTimeUtc s) (endTimeUtc s) (elapsed s) v
    (errorMessage s).

Definition set_errorMessage (v : option string) (s : TournamentState)
  : TournamentState :=
  mkTournamentState (status s) (progress s) (bots s) (matchHistory s)
    (currentMatch s) (startTimeUtc s) (endTimeUtc s) (elapsed s)
    (connectionState s) v.

(** ** Payloads of the push events *)

(** What a handler reads from the wall clock: [Date.now()] and
    [new Date().toISOString()]. *)
Record Instant : Type := mkInstant {
  Date_now : Z;
  Date_toISOString : string
}.

Module MoveEvent.
(** The [moveEvent] object of [OnMovePlayed]; the engine statistics may be
    absent from it. *)
Record t : Type := mk {
  moveNumber : Z;
  redTimeRemainingMs : Z;
  blueTimeRemainingMs : Z;
  x : Z;
  y : Z;
  player : string;
  depthAchieved : option Z;
  nodesSearched : option Z;
  nodesPerSecond : option Z;
  tableHitRate : option Z;
  ponderingActive : option bool;
  vcfDepthAchieved : option Z;
  vcfNodesSearched : option Z
}.
End MoveEvent.

Module FinishedEvent.
(** The [finished] object of [OnGameFinished]. *)
Record t : Type := mk {
  winner : string;
  loser : string;
  totalMoves : Z;
  durationMs : Z;
  isDraw : bool;
  endedByTimeout : bool
}.
End FinishedEvent.

Inductive HubEvent : Type :=
| OnGameStarted (gameId redBot blueBot redDiff blueDiff : string)
| OnMovePlayed (moveEvent : MoveEvent.t)
| OnGameFinished (finished : FinishedEvent.t)
| OnTournamentProgress (completed total percent : Z) (currentMatch : string)
| OnTournamentCompleted (finalStandings : list AIBot) (totalGames durationMs : Z)
| OnTournamentStatusChanged (status : NumberOrString) (message : string)
| OnELOUpdated (bots : list AIBot).

(** ** The handlers registered by [setupEventHandlers] *)

Definition formatDuration (ms : Z) : string :=
  let seconds := ms / 1000 in
  let minutes := seconds / 60 in
  let hours := minutes / 60 in
  if 0 <? hours
  then number_to_string hours ++ "h " ++ number_to_string (Z.rem minutes 60) ++ "m"
  else number_to_string minutes ++ "m " ++ number_to_string (Z.rem seconds 60) ++ "s".

(** The comparator [(a, b) => b.elo - a.elo]. *)
Definition by_elo_descending (a b : AIBot) : Z := elo b - elo a.

Definition onGameStarted (now : Z) (gameId redBot blueBot redDiff blueDiff : string)
    (s : TournamentState) : TournamentState :=
  set_currentMatch
    (Some {| gameId := gameId;
             redBotName := redBot;
             blueBotName := blueBot;
             redDifficulty := redDiff;
             blueDifficulty := blueDiff;
             moveNumber := 0;
             board := [];
             redTimeRemainingMs := 420000;
             blueTimeRemainingMs := 420000;
             initialTimeSeconds := 420;
             incrementSeconds := 5;
             lastMove := None;
             lastMoveTimestamp := now;
             lastMoveStats := None |}) s.

(** The predicate of [board.filter]: [b.x !== moveEvent.x || b.y !== moveEvent.y]. *)
Definition other_coordinate (moveEvent : MoveEvent.t) (b : BoardCell) : bool :=
  negb (x b =? MoveEvent.x moveEvent) || negb (y b =? MoveEvent.y moveEvent).

Definition played_stats (moveEvent : MoveEvent.t) : EngineStats :=
  {| depthAchieved := or_zero (MoveEvent.depthAchieved moveEvent);
     nodesSearched := or_zero (MoveEvent.nodesSearched moveEvent);
     nodesPerSecond := or_zero (MoveEvent.nodesPerSecond moveEvent);
     tableHitRate := or_zero (MoveEvent.tableHitRate moveEvent);
     ponderingActive := or_false (MoveEvent.ponderingActive moveEvent);
     vcfDepthAchieved := or_zero (MoveEvent.vcfDepthAchieved moveEvent);
     vcfNodesSearched := or_zero (MoveEvent.vcfNodesSearched moveEvent) |}.

(** The live match after the assignments of the [OnMovePlayed] handler. *)
Definition played (now : Z) (moveEvent : MoveEvent.t) (m : CurrentMatchInfo)
  : CurrentMatchInfo :=
  {| gameId := gameId m;
     redBotName := redBotName m;
     blueBotName := blueBotName m;
     redDifficulty := redDifficulty m;
     blueDifficulty := blueDifficulty m;
     moveNumber := MoveEvent.moveNumber moveEvent;
     board :=
       (filter (other_coordinate moveEvent) (board m)
        ++ [mkBoardCell (MoveEvent.x moveEvent) (MoveEvent.y moveEvent)
              (MoveEvent.player moveEvent)])%list;
     redTimeRemainingMs := MoveEvent.redTimeRemainingMs moveEvent;
     blueTimeRemainingMs := MoveEvent.blueTimeRemainingMs moveEvent;
     initialTimeSeconds := initialTimeSeconds m;
     incrementSeconds := incrementSeconds m;
     lastMove := Some (MoveEvent.x moveEvent, MoveEvent.y moveEvent);
     lastMoveTimestamp := now;
     lastMoveStats := Some (played_stats moveEvent) |}.

Definition onMovePlayed (now : Z) (moveEvent : MoveEvent.t) (s : TournamentState)
  : TournamentState :=
  match currentMatch s with
  | None => s
  | Some m => set_currentMatch (Some (played now moveEvent m)) s
  end.

(** The [MatchResult] that the [OnGameFinished] handler builds from the event
    and the live match. *)
Definition finished_result (finished : FinishedEvent.t) (m : CurrentMatchInfo)
  : MatchResult :=
  let isRedWinner := String.eqb (FinishedEvent.winner finished) "red" in
  {| winner := FinishedEvent.winner finished;
     loser := FinishedEvent.loser finished;
     totalMoves := FinishedEvent.totalMoves finished;
     durationMs := FinishedEvent.durationMs finished;
     winnerDifficulty := if isRedWinner then redDifficulty m else blueDifficulty m;
     loserDifficulty := if isRedWinner then blueDifficulty m else redDifficulty m;
     isDraw := FinishedEvent.isDraw finished;
     endedByTimeout := FinishedEvent.endedByTimeout finished;
     winnerBotName := Some (if isRedWinner then redBotName m else blueBotName m);
     loserBotName := Some (if isRedWinner then blueBotName m else redBotName m) |}.

Definition onGameFinished (finished : FinishedEvent.t) (s : TournamentState)
  : TournamentState :=
  match currentMatch s with
  | None => s
  | Some m =>
      set_matchHistory
        (finished_result finished m :: slice0 19 (matchHistory s)) s
  end.

Definition onTournamentProgress (completed total percent : Z)
    (currentMatch : string) (s : TournamentState) : TournamentState :=
  set_progress (mkTournamentProgress completed total percent) s.

Definition onTournamentCompleted (iso : string) (finalStandings : list AIBot)
    (totalGames durationMs : Z) (s : TournamentState) : TournamentState :=
  set_elapsed (formatDuration durationMs)
    (set_endTimeUtc (Some iso)
       (set_progress (mkTournamentProgress totalGames totalGames 100)
          (set_bots finalStandings
             (set_status "completed" s)))).

Definition onTournamentStatusChanged (iso : string) (status' : NumberOrString)
    (message : string) (s : TournamentState) : TournamentState :=
  let s1 := set_status (mapStatusFromBackend status') s in
  if String.eqb (status s1) "running" && String.eqb (startTimeUtc s1) ""
  then set_startTimeUtc iso s1
  else s1.

Definition onELOUpdated (bots : list AIBot) (s : TournamentState)
  : TournamentState :=
  set_bots (js_sort by_elo_descending bots) s.

(** [connection.on(name, handler)]: the handler the hub runs for an event. *)
Definition on_event (t : Instant) (ev : HubEvent) (s : TournamentState)
  : TournamentState :=
  match ev with
  | OnGameStarted gameId redBot blueBot redDiff blueDiff =>
      onGameStarted (Date_now t) gameId redBot blueBot redDiff blueDiff s
  | OnMovePlayed moveEvent => onMovePlayed (Date_now t) moveEvent s
  | OnGameFinished finished => onGameFinished finished s
  | OnTournamentProgress completed total percent currentMatch =>
      onTournamentProgress completed total percent currentMatch s
  | OnTournamentCompleted finalStandings totalGames durationMs =>
      onTournamentCompleted (Date_toISOString t) finalStandings totalGames
        durationMs s
  | OnTournamentStatusChanged status message =>
      onTournamentStatusChanged (Date_toISOString t) status message s
  | OnELOUpdated bots => onELOUpdated bots s
  end.

(** ** The clock tick *)

Definition updateCountdown (now : Z) (s : TournamentState) : TournamentState :=
  match currentMatch s with
  | None => s
  | Some m =>
      if negb (String.eqb (status s) "running") then s
      else
        let elapsed := now - lastMoveTimestamp m in
        let isRedTurn := Z.rem (moveNumber m) 2 =? 0 in
        set_currentMatch
          (Some {| gameId := gameId m;
                   redBotName := redBotName m;
                   blueBotName := blueBotName m;
                   redDifficulty := redDifficulty m;
                   blueDifficulty := blueDifficulty m;
                   moveNumber := moveNumber m;
                   board := board m;
                   redTimeRemainingMs :=
                     if isRedTurn
                     then Z.max 0 (redTimeRemainingMs m - elapsed)
                     else redTimeRemainingMs m;
                   blueTimeRemainingMs :=
                     if isRedTurn
                     then blueTimeRemainingMs m
                     else Z.max 0 (blueTimeRemainingMs m - elapsed);
                   initialTimeSeconds := initialTimeSeconds m;
                   incrementSeconds := incrementSeconds m;
                   lastMove := lastMove m;
                   lastMoveTimestamp := now;
                   lastMoveStats := lastMoveStats m |}) s
  end.

(** ** Errors, promises and the store object *)

Record Error : Type := mkError { message : string }.

(** How an awaited promise settles. *)
Inductive completion (A : Type) : Type :=
| Resolved (a : A)
| Rejected (e : Error).
Arguments Resolved {A} a.
Arguments Rejected {A} e.

(** [signalR.HubConnectionState] *)
Inductive HubConnectionState : Type :=
| HubDisconnected
| HubConnecting
| HubConnected
| HubDisconnecting
| HubReconnecting.

(** The fields of a [TournamentStore] instance.  [connection] holds the state
    of the hub connection object when there is one, [countdownInterval] tells
    whether the interval handle is set, [console] is what [console.error]
    printed so far.  [maxReconnectAttempts] is initialised to 5 and never
    assigned, it is the constant below. *)
Record TournamentStore : Type := mkTournamentStore {
  state : TournamentState;
  connection : option HubConnectionState;
  reconnectAttempts : Z;
  countdownInterval : bool;
  console : list (string * Error)
}.

Definition maxReconnectAttempts : Z := 5.

(** [new TournamentStore()]: the constructor arms the 100 ms interval. *)
Definition new_TournamentStore : TournamentStore :=
  {| state := initial_state;
     connection := None;
     reconnectAttempts := 0;
     countdownInterval := true;
     console := [] |}.

(** An operation on the store: the store afterwards, and a value or a thrown
    error. *)
Definition Async (A : Type) : Type :=
  TournamentStore -> TournamentStore * completion A.

Definition ret {A : Type} (a : A) : Async A := fun this => (this, Resolved a).

Definition throw {A : Type} (e : Error) : Async A := fun this => (this, Rejected e).

Definition bind {A B : Type} (c : Async A) (k : A -> Async B) : Async B :=
  fun this =>
    match c this with
    | (this', Resolved a) => k a this'
    | (this', Rejected e) => (this', Rejected e)
    end.

(** [try { body } catch (err) { handler }] *)
Definition try_catch {A : Type} (body : Async A) (handler : Error -> Async A)
  : Async A :=
  fun this =>
    match body this with
    | (this', Resolved a) => (this', Resolved a)
    | (this', Rejected e) => handler e this'
    end.

(** [await p] for a promise that settles as [c]. *)
Definition await {A : Type} (c : completion A) : Async A :=
  match c with
  | Resolved a => ret a
  | Rejected e => throw e
  end.

Notation "x <- c1 ;; c2" := (bind c1 (fun x => c2))
  (at level 61, c1 at next level, right associativity).
Notation "c1 ;; c2" := (bind c1 (fun _ => c2))
  (at level 61, right associativity).

(** A run of assignments to [this.state]. *)
Definition assign (f : TournamentState -> TournamentState) : Async unit :=
  fun this =>
    (mkTournamentStore (f (state this)) (connection this)
       (reconnectAttempts this) (countdownInterval this) (console this),
     Resolved tt).

Definition set_connection (c : option HubConnectionState) : Async unit :=
  fun this =>
    (mkTournamentStore (state this) c (reconnectAttempts this)
       (countdownInterval this) (console this),
     Resolved tt).

Definition set_reconnectAttempts (n : Z) : Async unit :=
  fun this =>
    (mkTournamentStore (state this) (connection this) n
       (countdownInterval this) (console this),
     Resolved tt).

Definition set_countdownInterval (b : bool) : Async unit :=
  fun this =>
    (mkTournamentStore (state this) (connection this) (reconnectAttempts this)
       b (console this),
     Resolved tt).

Definition console_error (label : string) (err : Error) : Async unit :=
  fun this =>
    (mkTournamentStore (state this) (connection this) (reconnectAttempts this)
       (countdownInterval this) (console this ++ [(label, err)])%list,
     Resolved tt).

(** ** HTTP *)

(** A [Response]: its [ok] flag and how [response.json()] settles. *)
Record Response (A : Type) : Type := mkResponse {
  ok : bool;
  json : completion A
}.
Arguments mkResponse {A} ok json.
Arguments ok {A} r.
Arguments json {A} r.

(** What the network does with one request: [fetch] rejects, or it resolves
    with a response. *)
Inductive HttpReply (A : Type) : Type :=
| NetworkError (e : Error)
| Responded (r : Response A).
Arguments NetworkError {A} e.
Arguments Responded {A} r.

Definition fetch {A : Type} (reply : HttpReply A) : Async (Response A) :=
  match reply with
  | NetworkError e => throw e
  | Responded r => ret r
  end.

Module Snapshot.
(** An element of [data.matchHistory]. *)
Record MatchEntry : Type := mkMatchEntry {
  winner : string;
  loser : string;
  totalMoves : Z;
  durationMs : Z;
  winnerDifficulty : NumberOrString;
  loserDifficulty : NumberOrString;
  isDraw : bool;
  endedByTimeout : bool;
  winnerBotName : option string;
  loserBotName : option string
}.

(** [data.currentMatch] when it is present. *)
Record Match : Type := mkMatch {
  gameId : string;
  redBotName : string;
  blueBotName : string;
  redDifficulty : NumberOrString;
  blueDifficulty : NumberOrString;
  moveNumber : Z;
  board : list BoardCell;
  redTimeRemainingMs : Z;
  blueTimeRemainingMs : Z;
  initialTimeSeconds : Z;
  incrementSeconds : Z;
  lastMove : option (Z * Z);
  lastMoveTimestamp : Z
}.

(** The body of [GET /state]. *)
Record t : Type := mk {
  status : NumberOrString;
  completedGames : Z;
  totalGames : Z;
  progressPercent : Z;
  bots : option (list AIBot);
  matchHistory : option (list MatchEntry);
  currentMatch : option Match;
  startTimeUtc : option string;
  endTimeUtc : option string
}.
End Snapshot.

Module ErrorBody.
(** The body of a command's error response. *)
Record t : Type := mk { message : option string }.
End ErrorBody.

(** ** The snapshot fetch *)

Definition snapshot_result (m : Snapshot.MatchEntry) : MatchResult :=
  {| winner := Snapshot.winner m;
     loser := Snapshot.loser m;
     totalMoves := Snapshot.totalMoves m;
     durationMs := Snapshot.durationMs m;
     winnerDifficulty := mapDifficultyFromBackend (Snapshot.winnerDifficulty m);
     loserDifficulty := mapDifficultyFromBackend (Snapshot.loserDifficulty m);
     isDraw := Snapshot.isDraw m;
     endedByTimeout := Snapshot.endedByTimeout m;
     winnerBotName := Snapshot.winnerBotName m;
     loserBotName := Snapshot.loserBotName m |}.

Definition snapshot_match (c : Snapshot.Match) : CurrentMatchInfo :=
  {| gameId := Snapshot.gameId c;
     redBotName := Snapshot.redBotName c;
     blueBotName := Snapshot.blueBotName c;
     redDifficulty := mapDifficultyFromBackend (Snapshot.redDifficulty c);
     blueDifficulty := mapDifficultyFromBackend (Snapshot.blueDifficulty c);
     moveNumber := Snapshot.moveNumber c;
     board := Snapshot.board c;
     redTimeRemainingMs := Snapshot.redTimeRemainingMs c;
     blueTimeRemainingMs := Snapshot.blueTimeRemainingMs c;
     initialTimeSeconds := Snapshot.initialTimeSeconds c;
     incrementSeconds := Snapshot.incrementSeconds c;
     lastMove := Snapshot.lastMove c;
     lastMoveTimestamp := Snapshot.lastMoveTimestamp c;
     lastMoveStats := None |}.

(** The seven assignments of [fetchState] after [response.json()]. *)
Definition apply_snapshot (data : Snapshot.t) (s : TournamentState)
  : TournamentState :=
  let s1 := set_status (mapStatusFromBackend (Snapshot.status data)) s in
  let s2 :=
    set_progress
      (mkTournamentProgress (Snapshot.completedGames data)
         (Snapshot.totalGames data) (Snapshot.progressPercent data)) s1 in
  let s3 :=
    set_bots (js_sort by_elo_descending (or_empty (Snapshot.bots data))) s2 in
  let s4 :=
    set_matchHistory
      (map snapshot_result (or_empty (Snapshot.matchHistory data))) s3 in
  let s5 :=
    set_currentMatch (option_map snapshot_match (Snapshot.currentMatch data)) s4 in
  let s6 := set_startTimeUtc (or_string (Snapshot.startTimeUtc data) "") s5 in
  set_endTimeUtc (or_null (Snapshot.endTimeUtc data)) s6.

Definition fetchState (reply : HttpReply Snapshot.t) : Async unit :=
  try_catch
    (response <- fetch reply ;;
     if negb (ok response) then throw (mkError "Failed to fetch state")
     else
       data <- await (json response) ;;
       assign (apply_snapshot data))
    (fun err => console_error "Failed to fetch:" err).

(** ** The commands *)

Definition startTournament (reply : HttpReply ErrorBody.t)
    (refresh : HttpReply Snapshot.t) : Async bool :=
  try_catch
    (response <- fetch reply ;;
     if negb (ok response) then
       data <- await (json response) ;;
       assign (set_errorMessage
                 (Some (or_string (ErrorBody.message data) "Failed to start"))) ;;
       ret false
     else
       fetchState refresh ;;
       ret true)
    (fun err =>
       assign (set_errorMessage (Some ("Failed to start: " ++ message err))) ;;
       ret false).

Definition pauseTournament (reply : HttpReply ErrorBody.t)
    (refresh : HttpReply Snapshot.t) : Async bool :=
  try_catch
    (response <- fetch reply ;;
     if negb (ok response) then ret false
     else
       fetchState refresh ;;
       ret true)
    (fun err =>
       assign (set_errorMessage (Some ("Failed to pause: " ++ message err))) ;;
       ret false).

Definition resumeTournament (reply : HttpReply ErrorBody.t)
    (refresh : HttpReply Snapshot.t) : Async bool :=
  try_catch
    (response <- fetch reply ;;
     if negb (ok response) then ret false
     else
       fetchState refresh ;;
       ret true)
    (fun err =>
       assign (set_errorMessage (Some ("Failed to resume: " ++ message err))) ;;
       ret false).

(** ** The connection life cycle *)

(** The [nextRetryDelayInMilliseconds] callback given to
    [withAutomaticReconnect]; [None] is its [null]. *)
Definition nextRetryDelayInMilliseconds (previousRetryCount : nat) : option Z :=
  if maxReconnectAttempts <=? Z.of_nat previousRetryCount then None
  else Some (Z.min (1000 * 2 ^ Z.of_nat previousRetryCount) 10000).

(** The delays the policy hands out from a given retry count on, up to its
    first [null]. *)
Fixpoint retry_delays (fuel : nat) (previousRetryCount : nat) : list Z :=
  match fuel with
  | O => []
  | S fuel' =>
      match nextRetryDelayInMilliseconds previousRetryCount with
      | None => []
      | Some delay => delay :: retry_delays fuel' (S previousRetryCount)
      end
  end.

(** [await this.connection.start()]: the hub is connected when it resolves. *)
Definition start_hub (started : completion unit) : Async unit :=
  await started ;;
  set_connection (Some HubConnected).

(** [connect()].  [started] is how [connection.start()] settles and [reply]
    what the network answers to the snapshot request that follows. *)
Definition connect (started : completion unit) (reply : HttpReply Snapshot.t)
  : Async unit :=
  fun this =>
    match connection this with
    | Some HubConnected => ret tt this
    | _ =>
        (assign (set_connectionState connecting) ;;
         assign (set_errorMessage None) ;;
         try_catch
           (set_connection (Some HubDisconnected) ;;
            start_hub started ;;
            assign (set_connectionState connected) ;;
            set_reconnectAttempts 0 ;;
            fetchState reply)
           (fun err =>
              assign (set_connectionState disconnected) ;;
              assign (set_errorMessage
                        (Some ("Failed to connect: " ++ message err))) ;;
              throw err)) this
    end.

(** [disconnect()].  [stopped] is how [connection.stop()] settles. *)
Definition disconnect (stopped : completion unit) : Async unit :=
  fun this =>
    ((if countdownInterval this then set_countdownInterval false else ret tt) ;;
     (match connection this with
      | Some _ => await stopped ;; set_connection None
      | None => ret tt
      end) ;;
     assign (set_connectionState disconnected)) this.

(** The callbacks registered with [onreconnecting], [onreconnected] and
    [onclose]; the hub has changed its own state when it runs them. *)
Definition onreconnecting (error : option Error) : Async unit :=
  set_connection (Some HubReconnecting) ;;
  assign (set_connectionState reconnecting) ;;
  assign (set_errorMessage
            (Some (or_string (option_map message error)
                     "Connection lost. Reconnecting..."))).

Definition onreconnected (connectionId : option string)
    (reply : HttpReply Snapshot.t) : Async unit :=
  set_connection (Some HubConnected) ;;
  assign (set_connectionState connected) ;;
  assign (set_errorMessage None) ;;
  fetchState reply.

Definition onclose (error : option Error) : Async unit :=
  set_connection (Some HubDisconnected) ;;
  assign (set_connectionState disconnected) ;;
  match error with
  | Some e => assign (set_errorMessage (Some ("Connection closed: " ++ message e)))
  | None => ret tt
  end.

(** The hub delivers a push event: the registered handler runs. *)
Definition deliver (t : Instant) (ev : HubEvent) : Async unit :=
  assign (on_event t ev).

(** The interval timer fires: [updateCountdown] runs while the handle is set. *)
Definition interval_fires (now : Z) : Async unit :=
  fun this =>
    if countdownInterval this then assign (updateCountdown now) this
    else ret tt this.

(** ** Sequences of inputs to the reducer *)

(** What reaches the state between two snapshots: a push event or a tick. *)
Inductive Input : Type :=
| Event (t : Instant) (ev : HubEvent)
| Tick (now : Z).

Definition step (s : TournamentState) (i : Input) : TournamentState :=
  match i with
  | Event t ev => on_event t ev s
  | Tick now => updateCountdown now s
  end.

Definition run (inputs : list Input) (s : TournamentState) : TournamentState :=
  fold_left step inputs s.

(** A sequence of [OnGameFinished] events. *)
Definition run_finished (events : list FinishedEvent.t) (s : TournamentState)
  : TournamentState :=
  fold_left (fun s' finished => onGameFinished finished s') events s.

(** ** Predicates of the specification *)

(** [a] may stand right before [b] in a roster in descending order of
    rating. *)
Definition rated_before (a b : AIBot) : Prop := elo b <= elo a.

(** Adjacent bots are in descending order of rating. *)
Definition descending_elo (l : list AIBot) : Prop := Sorted rated_before l.

(** The coordinates of the cells of a board. *)
Definition coordinates (b : list BoardCell) : list (Z * Z) :=
  map (fun c => (x c, y c)) b.

(** At most one entry per coordinate. *)
Definition one_entry_per_coordinate (b : list BoardCell) : Prop :=
  NoDup (coordinates b).

(** Both remaining-time budgets of a live match are non-negative. *)
Definition clocks_nonnegative (m : CurrentMatchInfo) : Prop :=
  0 <= redTimeRemainingMs m /\ 0 <= blueTimeRemainingMs m.

(** A move-played input reports non-negative budgets; other inputs are not
    constrained. *)
Definition reports_nonnegative (i : Input) : Prop :=
  match i with
  | Event _ (OnMovePlayed moveEvent) =>
      0 <= MoveEvent.redTimeRemainingMs moveEvent
      /\ 0 <= MoveEvent.blueTimeRemainingMs moveEvent
  | _ => True
  end.

(** A clock tick or a move-played event. *)
Definition tick_or_move (i : Input) : Prop :=
  match i with
  | Tick _ => True
  | Event _ (OnMovePlayed _) => True
  | _ => False
  end.

(** The error a snapshot request ends with, when it fails: the network
    error, the error thrown for a response that is not ok, or the rejection
    of [response.json()]. *)
Definition fetch_failure (reply : HttpReply Snapshot.t) : option Error :=
  match reply with
  | NetworkError e => Some e
  | Responded r =>
      if negb (ok r) then Some (mkError "Failed to fetch state")
      else match json r with
           | Resolved _ => None
           | Rejected e => Some e
           end
  end.

(** The store takes one input: the hub delivers an event, or the interval
    timer fires. *)
Definition feed (i : Input) : Async unit :=
  match i with
  | Event t ev => deliver t ev
  | Tick now => interval_fires now
  end.

Fixpoint feed_all (inputs : list Input) : Async unit :=
  match inputs with
  | [] => ret tt
  | i :: rest => feed i ;; feed_all rest
  end.

(** ** The scenario of the specification

    match-started("g1", "A", "B", ...), one move of red at (3, 4), and the
    match-finished event that red wins. *)

Definition scenario_started : TournamentState :=
  onGameStarted 1000 "g1" "A" "B" "normal" "hard" initial_state.

Definition scenario_match : CurrentMatchInfo :=
  {| gameId := "g1";
     redBotName := "A";
     blueBotName := "B";
     redDifficulty := "normal";
     blueDifficulty := "hard";
     moveNumber := 0;
     board := [];
     redTimeRemainingMs := 420000;
     blueTimeRemainingMs := 420000;
     initialTimeSeconds := 420;
     incrementSeconds := 5;
     lastMove := None;
     lastMoveTimestamp := 1000;
     lastMoveStats := None |}.

Definition scenario_move : MoveEvent.t :=
  MoveEvent.mk 1 415000 420000 3 4 "red" None None None None None None None.

(** The same coordinate delivered again, with another occupant. *)
Definition scenario_replay : MoveEvent.t :=
  MoveEvent.mk 2 415000 410000 3 4 "blue" None None None None None None None.

Definition scenario_finished : FinishedEvent.t :=
  FinishedEvent.mk "red" "blue" 1 5000 false false.

Definition scenario_instant : Instant :=
  mkInstant 6000 "2026-01-01T00:00:06.000Z".

(** A snapshot that reports a finished tournament: 21 results and no active
    match. *)
Definition snapshot_entry : Snapshot.MatchEntry :=
  Snapshot.mkMatchEntry "red" "blue" 31 64000 (Num 3) (Num 5) false false
    (Some "A") (Some "B").

Definition snapshot_of_21 : Snapshot.t :=
  Snapshot.mk (Num 3) 21 21 100 None (Some (repeat snapshot_entry 21)) None
    (Some "2026-01-01T00:00:00.000Z") None.

(** The reply that carries a snapshot: status ok and a body that parses. *)
Definition snapshot_reply (data : Snapshot.t) : HttpReply Snapshot.t :=
  Responded (mkResponse true (Resolved data)).

Definition after_snapshot_of_21 : TournamentState :=
  state (fst (fetchState (snapshot_reply snapshot_of_21) new_TournamentStore)).

(** A move-played event whose red budget is below zero. *)
Definition overrun_move : MoveEvent.t :=
  MoveEvent.mk 1 (-5) 420000 3 4 "red" None None None None None None None.

(** Final standings as the server may report them: in the order of the
    pairing table, not of the ratings. *)
Definition standings_by_name : list AIBot :=
  [mkAIBot "A" "normal" 584 0 1 0 1 0; mkAIBot "B" "hard" 616 1 0 0 1 100].

(** The server refuses a command: status not ok, and a body with a message. *)
Definition refused_reply : HttpReply ErrorBody.t :=
  Responded
    (mkResponse false (Resolved (ErrorBody.mk (Some "Tournament is not running")))).

(** The store after [console.error(label, err)]. *)
Definition logged (label : string) (err : Error) (this : TournamentStore)
  : TournamentStore :=
  fst (console_error label err this).

(** The store after assignments [f] to its state. *)
Definition assigned (f : TournamentState -> TournamentState)
    (this : TournamentStore) : TournamentStore :=
  fst (assign f this).

(** The store at the moment [connection.start()] is awaited. *)
Definition connecting_store (this : TournamentStore) : TournamentStore :=
  mkTournamentStore
    (set_errorMessage None (set_connectionState connecting (state this)))
    (Some HubDisconnected) (reconnectAttempts this) (countdownInterval this)
    (console this).

(** ** The getters and the formatting helpers of the store *)

(** [get sortedBots()]: a sorted copy, the state keeps its own array. *)
Definition sortedBots (this : TournamentStore) : list AIBot :=
  js_sort by_elo_descending (bots (state this)).

(** [get recentMatches()] *)
Definition recentMatches (this : TournamentStore) : list MatchResult :=
  slice0 50 (matchHistory (state this)).

(** The first [n] characters of [cur] followed by [pad] again and again. *)
Fixpoint pad_fill (n : nat) (cur pad : string) : string :=
  match n with
  | O => EmptyString
  | S n' =>
      match cur with
      | String c rest => String c (pad_fill n' rest pad)
      | EmptyString =>
          match pad with
          | String c rest => String c (pad_fill n' rest pad)
          | EmptyString => EmptyString
          end
      end
  end.

(** [s.padStart(targetLength, padString)] *)
Definition padStart (targetLength : nat) (padString s : string) : string :=
  if (targetLength <=? String.length s)%nat then s
  else pad_fill (targetLength - String.length s) padString padString ++ s.

Definition formatTime (ms : Z) : string :=
  let seconds := ms / 1000 in
  let minutes := seconds / 60 in
  number_to_string minutes ++ ":"
  ++ padStart 2 "0" (number_to_string (Z.rem seconds 60)).

Definition formatELOChange (bot : AIBot) : string :=
  let change := elo bot - 600 in
  if 0 <=? change then "+" ++ number_to_string change
  else number_to_string change.

Definition getELOChangeClass (bot : AIBot) : string :=
  let change := elo bot - 600 in
  if 0 <? change then "text-green-600"
  else if change <? 0 then "text-red-600"
  else "text-gray-500".

(** The cells of a board at the coordinate of a move event. *)
Definition at_coordinate (moveEvent : MoveEvent.t) (b : list BoardCell)
  : list BoardCell :=
  filter (fun c => negb (other_coordinate moveEvent c)) b.

(** The bots of a roster that have a given rating, in roster order. *)
Definition rated (e : Z) (l : list AIBot) : list AIBot :=
  filter (fun b => elo b =? e) l.

(** A roster with two bots of equal rating between two others. *)
Definition roster_with_tie : list AIBot :=
  [mkAIBot "A" "normal" 584 0 1 0 1 0;
   mkAIBot "B" "hard" 600 0 0 1 1 0;
   mkAIBot "C" "easy" 616 1 0 0 1 100;
   mkAIBot "D" "expert" 600 0 0 1 1 0].

(** A snapshot taken while the match of the scenario is being played. *)
Definition snapshot_live : Snapshot.t :=
  Snapshot.mk (Num 1) 3 10 30 (Some roster_with_tie) (Some [snapshot_entry])
    (Some (Snapshot.mkMatch "g1" "A" "B" (Num 3) (Num 5) 1
             [mkBoardCell 3 4 "red"] 415000 420000 420 5 (Some (3, 4)) 6000))
    (Some "2026-01-01T00:00:00.000Z") None.

(** The scenario while the tournament is running. *)
Definition scenario_running : TournamentState :=
  set_startTimeUtc "2026-01-01T00:00:00.000Z"
    (set_status "running" scenario_started).

(** * Properties *)

(** ** Normalizers *)

Lemma index_statusMap_other (n : Z) :
  n < 0 \/ 3 < n -> index statusMap n = None.
Proof.
  intros Hn. unfold statusMap. cbn [index].
  repeat match goal with
         | |- context [Z.eqb ?k n] => destruct (Z.eqb_spec k n); [lia |]
         end.
  reflexivity.
Qed.

Lemma index_diffMap_other (n : Z) :
  n < 1 \/ 11 < n -> index diffMap n = None.
Proof.
  intros Hn. unfold diffMap. cbn [index].
  repeat match goal with
         | |- context [Z.eqb ?k n] => destruct (Z.eqb_spec k n); [lia |]
         end.
  reflexivity.
Qed.

(** C10.  The status normalizer sends the codes 0, 1, 2, 3 to idle, running,
    paused, completed and every other integer to idle; the difficulty
    normalizer sends the codes 1 to 11 to the eleven tiers from beginner to
    legend and every other integer to beginner; both return a string value
    unchanged (any string, so a canonical one in particular), hence
    normalizing twice is the same as normalizing once. *)
Theorem normalizers_table_fallback_idempotent :
  map (fun n => mapStatusFromBackend (Num n)) [0; 1; 2; 3]
    = TournamentStatus_values
  /\ (forall n, n < 0 \/ 3 < n -> mapStatusFromBackend (Num n) = "idle")
  /\ map (fun n => mapDifficultyFromBackend (Num n))
       [1; 2; 3; 4; 5; 6; 7; 8; 9; 10; 11]
     = AIDifficulty_values
  /\ (forall n, n < 1 \/ 11 < n -> mapDifficultyFromBackend (Num n) = "beginner")
  /\ (forall s, mapStatusFromBackend (Str s) = s)
  /\ (forall s, mapDifficultyFromBackend (Str s) = s)
  /\ (forall v,
        mapStatusFromBackend (Str (mapStatusFromBackend v))
        = mapStatusFromBackend v)
  /\ (forall v,
        mapDifficultyFromBackend (Str (mapDifficultyFromBackend v))
        = mapDifficultyFromBackend v).
Proof.
  repeat split; try reflexivity.
  - intros n Hn. cbn [mapStatusFromBackend].
    now rewrite index_statusMap_other.
  - intros n Hn. cbn [mapDifficultyFromBackend].
    now rewrite index_diffMap_other.
Qed.

Lemma normalizers_table_fallback_idempotent_witness :
  mapStatusFromBackend (Num 7) = "idle"
  /\ mapDifficultyFromBackend (Num 0) = "beginner"
  /\ mapDifficultyFromBackend (Str "veryHard") = "veryHard".
Proof.
  destruct normalizers_table_fallback_idempotent
    as (_ & Hs & _ & Hd & _ & Hstr & _).
  split; [apply Hs; right; lia |].
  split; [apply Hd; left; lia | apply Hstr].
Defined.

(** ** Reconnect policy *)

Lemma nextRetryDelay_exhausted (k : nat) :
  nextRetryDelayInMilliseconds (5 + k) = None.
Proof.
  unfold nextRetryDelayInMilliseconds, maxReconnectAttempts.
  destruct (Z.leb_spec 5 (Z.of_nat (5 + k))); [reflexivity | lia].
Qed.

Lemma retry_delays_schedule (k : nat) :
  retry_delays (5 + k) 0 = [1000; 2000; 4000; 8000; 10000].
Proof.
  change (5 + k)%nat with (S (S (S (S (S k))))).
  cbn [retry_delays].
  change (nextRetryDelayInMilliseconds 0) with (Some 1000).
  change (nextRetryDelayInMilliseconds 1) with (Some 2000).
  change (nextRetryDelayInMilliseconds 2) with (Some 4000).
  change (nextRetryDelayInMilliseconds 3) with (Some 8000).
  change (nextRetryDelayInMilliseconds 4) with (Some 10000).
  cbv iota. do 5 f_equal.
  destruct k; [reflexivity |].
  cbn [retry_delays].
  now rewrite (nextRetryDelay_exhausted 0 : nextRetryDelayInMilliseconds 5 = None).
Qed.

Lemma or_string_nonempty (s : option string) (d : string) :
  d <> "" -> or_string s d <> "".
Proof.
  intros Hd. unfold or_string. destruct s as [v |]; [| exact Hd].
  destruct (String.eqb_spec v ""); assumption.
Qed.

Lemma bind_run {A B : Type} (c : Async A) (k : A -> Async B)
    (this this' : TournamentStore) (a : A) :
  c this = (this', Resolved a) -> bind c k this = k a this'.
Proof. intros H. unfold bind. now rewrite H. Qed.

Lemma bind_rejected {A B : Type} (c : Async A) (k : A -> Async B)
    (this this' : TournamentStore) (e : Error) :
  c this = (this', Rejected e) -> bind c k this = (this', Rejected e).
Proof. intros H. unfold bind. now rewrite H. Qed.

Lemma onreconnecting_run (error : option Error) (this : TournamentStore) :
  exists this',
    onreconnecting error this = (this', Resolved tt)
    /\ connectionState (state this') = reconnecting
    /\ exists msg, errorMessage (state this') = Some msg /\ msg <> "".
Proof.
  eexists. split; [reflexivity |]. split; [reflexivity |].
  eexists. split; [reflexivity |].
  apply or_string_nonempty. discriminate.
Qed.

Lemma on_event_keeps_connection (t : Instant) (ev : HubEvent) (s : TournamentState) :
  connectionState (on_event t ev s) = connectionState s
  /\ errorMessage (on_event t ev s) = errorMessage s.
Proof.
  destruct ev; cbn [on_event].
  - split; reflexivity.
  - unfold onMovePlayed. destruct (currentMatch s); split; reflexivity.
  - unfold onGameFinished. destruct (currentMatch s); split; reflexivity.
  - split; reflexivity.
  - split; reflexivity.
  - unfold onTournamentStatusChanged. cbv zeta.
    destruct (_ && _); split; reflexivity.
  - split; reflexivity.
Qed.

Lemma updateCountdown_keeps_connection (now : Z) (s : TournamentState) :
  connectionState (updateCountdown now s) = connectionState s
  /\ errorMessage (updateCountdown now s) = errorMessage s.
Proof.
  unfold updateCountdown. destruct (currentMatch s); [| split; reflexivity].
  destruct (negb _); split; reflexivity.
Qed.

Lemma feed_keeps_connection (i : Input) (this : TournamentStore) :
  connectionState (state (fst (feed i this))) = connectionState (state this)
  /\ errorMessage (state (fst (feed i this))) = errorMessage (state this).
Proof.
  destruct i as [t ev | now]; cbn [feed].
  - unfold deliver, assign. cbn [fst state]. apply on_event_keeps_connection.
  - unfold interval_fires. destruct (countdownInterval this).
    + unfold assign. cbn [fst state]. apply updateCountdown_keeps_connection.
    + split; reflexivity.
Qed.

Lemma feed_resolves (i : Input) (this : TournamentStore) :
  snd (feed i this) = Resolved tt.
Proof.
  destruct i; cbn [feed]; unfold deliver, interval_fires, assign, ret.
  - reflexivity.
  - destruct (countdownInterval this); reflexivity.
Qed.

Lemma feed_all_keeps_connection (inputs : list Input) :
  forall this,
    snd (feed_all inputs this) = Resolved tt
    /\ connectionState (state (fst (feed_all inputs this)))
       = connectionState (state this)
    /\ errorMessage (state (fst (feed_all inputs this)))
       = errorMessage (state this).
Proof.
  induction inputs as [| i rest IH]; intros this.
  - repeat split; reflexivity.
  - cbn [feed_all]. unfold bind.
    pose proof (feed_resolves i this) as Hr.
    pose proof (feed_keeps_connection i this) as [Hc He].
    destruct (feed i this) as [this' r]. cbn [fst snd] in *. subst r.
    destruct (IH this') as (IHr & IHc & IHe).
    repeat split; congruence.
Qed.

(** C9.  The retry policy answers 1000, 2000, 4000, 8000 and 10000 ms to the
    retry counts 0 to 4, which is min(1000 * 2^n, 10000); from count 5 on it
    answers null, so the schedule holds five delays and no sixth; and when the
    hub, having announced that it reconnects, closes the connection (with or
    without an error, whatever events and ticks arrive in between), the
    connection state is disconnected and an error message is set. *)
Theorem reconnect_backoff_then_disconnected :
  map nextRetryDelayInMilliseconds [0; 1; 2; 3; 4]%nat
    = [Some 1000; Some 2000; Some 4000; Some 8000; Some 10000]
  /\ (forall n : nat,
        nextRetryDelayInMilliseconds n
        = if (n <? 5)%nat
          then Some (Z.min (1000 * 2 ^ Z.of_nat n) 10000)
          else None)
  /\ (forall k : nat, nextRetryDelayInMilliseconds (5 + k) = None)
  /\ (forall k : nat, retry_delays (5 + k) 0 = [1000; 2000; 4000; 8000; 10000])
  /\ (forall (this : TournamentStore) (error closeError : option Error)
             (inputs : list Input),
        let closed :=
          fst ((onreconnecting error ;; feed_all inputs ;; onclose closeError)
                 this) in
        connectionState (state closed) = disconnected
        /\ exists msg, errorMessage (state closed) = Some msg /\ msg <> "").
Proof.
  split; [reflexivity |].
  split.
  { intros n. unfold nextRetryDelayInMilliseconds, maxReconnectAttempts.
    destruct (Nat.ltb_spec n 5); destruct (Z.leb_spec 5 (Z.of_nat n));
      try lia; reflexivity. }
  split; [exact nextRetryDelay_exhausted |].
  split; [exact retry_delays_schedule |].
  intros this error closeError inputs closed. subst closed.
  destruct (onreconnecting_run error this) as (this1 & Hrun1 & _ & Hmsg1).
  rewrite (bind_run _ _ _ _ _ Hrun1).
  destruct (feed_all_keeps_connection inputs this1) as (Hr & _ & He).
  destruct (feed_all inputs this1) as [this2 r] eqn:Hrun2.
  cbn [fst snd] in Hr, He. subst r.
  rewrite (bind_run _ _ _ _ _ Hrun2).
  rewrite <- He in Hmsg1.
  unfold onclose, bind, set_connection, assign, ret.
  destruct closeError as [e |]; cbn [fst state]; (split; [reflexivity |]).
  - eexists. split; [reflexivity | discriminate].
  - destruct Hmsg1 as (msg & Hmsg & Hne). exists msg. split; [exact Hmsg | exact Hne].
Qed.

(** ** The board under move-played events *)

Lemma other_coordinate_true (moveEvent : MoveEvent.t) (c : BoardCell) :
  other_coordinate moveEvent c = true
  <-> (x c, y c) <> (MoveEvent.x moveEvent, MoveEvent.y moveEvent).
Proof.
  unfold other_coordinate.
  destruct (Z.eqb_spec (x c) (MoveEvent.x moveEvent)) as [Hx | Hx];
    destruct (Z.eqb_spec (y c) (MoveEvent.y moveEvent)) as [Hy | Hy];
    cbn [negb orb]; split; intros H; try reflexivity; congruence.
Qed.

Lemma coordinates_filter_NoDup (f : BoardCell -> bool) (b : list BoardCell) :
  NoDup (coordinates b) -> NoDup (coordinates (filter f b)).
Proof.
  unfold coordinates.
  induction b as [| c rest IH]; intros Hnd; [exact Hnd |].
  cbn [map] in Hnd. apply NoDup_cons_iff in Hnd as [Hnotin Hrest].
  cbn [filter]. destruct (f c); [| now apply IH].
  cbn [map]. apply NoDup_cons; [| now apply IH].
  intros Hin. apply Hnotin.
  apply in_map_iff in Hin as (c' & Hc' & Hin').
  apply filter_In in Hin' as [Hin' _].
  apply in_map_iff. now exists c'.
Qed.

Lemma coordinates_filter_removed (moveEvent : MoveEvent.t) (b : list BoardCell) :
  ~ In (MoveEvent.x moveEvent, MoveEvent.y moveEvent)
      (coordinates (filter (other_coordinate moveEvent) b)).
Proof.
  unfold coordinates. intros Hin.
  apply in_map_iff in Hin as (c & Hc & Hin).
  apply filter_In in Hin as [_ Hother].
  apply other_coordinate_true in Hother. now apply Hother.
Qed.

(** C6.  When the live match has at most one board entry per coordinate, a
    move-played event leaves a board with at most one entry per coordinate:
    it is the old board without the entries at the event's coordinate,
    followed by the event's cell; the only entry at that coordinate is the
    occupant the event reports, and the entries elsewhere are kept. *)
Theorem move_played_last_write_wins
    (now : Z) (moveEvent : MoveEvent.t) (s : TournamentState)
    (m : CurrentMatchInfo) :
  currentMatch s = Some m ->
  one_entry_per_coordinate (board m) ->
  let placed :=
    mkBoardCell (MoveEvent.x moveEvent) (MoveEvent.y moveEvent)
      (MoveEvent.player moveEvent) in
  exists m',
    currentMatch (onMovePlayed now moveEvent s) = Some m'
    /\ one_entry_per_coordinate (board m')
    /\ board m'
       = (filter (other_coordinate moveEvent) (board m) ++ [placed])%list
    /\ ~ In (x placed, y placed)
         (coordinates (filter (other_coordinate moveEvent) (board m)))
    /\ In placed (board m')
    /\ (forall c, In c (board m') ->
          (x c, y c) = (x placed, y placed) -> c = placed)
    /\ (forall c, In c (board m) ->
          (x c, y c) <> (x placed, y placed) -> In c (board m')).
Proof.
  intros Hlive Hone placed.
  exists (played now moveEvent m).
  unfold onMovePlayed. rewrite Hlive.
  split; [reflexivity |].
  assert (Hremoved := coordinates_filter_removed moveEvent (board m)).
  cbn [played board].
  split.
  { unfold one_entry_per_coordinate, coordinates.
    rewrite map_app. cbn [map x y].
    apply NoDup_app.
    - now apply coordinates_filter_NoDup.
    - apply NoDup_cons; [intros [] | apply NoDup_nil].
    - intros c Hin [Hc | []]. subst c. now apply Hremoved. }
  split; [reflexivity |].
  split; [exact Hremoved |].
  split; [apply in_or_app; right; now left |].
  split.
  - intros c Hin Hc. apply in_app_or in Hin as [Hin | [Hin | []]].
    + exfalso. apply filter_In in Hin as [_ Hother].
      apply other_coordinate_true in Hother. now apply Hother.
    + now symmetry.
  - intros c Hin Hc. apply in_or_app. left.
    apply filter_In. split; [exact Hin |].
    now apply other_coordinate_true.
Qed.

Lemma move_played_last_write_wins_witness :
  exists m',
    currentMatch
      (onMovePlayed 7000 scenario_replay
         (onMovePlayed 6000 scenario_move scenario_started)) = Some m'
    /\ board m' = [mkBoardCell 3 4 "blue"].
Proof.
  destruct (move_played_last_write_wins 7000 scenario_replay
              (onMovePlayed 6000 scenario_move scenario_started)
              (played 6000 scenario_move scenario_match))
    as (m' & Hlive & _ & Hboard & _).
  - reflexivity.
  - apply NoDup_cons; [intros [] | apply NoDup_nil].
  - exists m'. split; [exact Hlive | rewrite Hboard; reflexivity].
Defined.

(** ** The match history under match-finished events *)

Lemma firstn_app_firstn {A : Type} (n k : nat) (l1 l2 : list A) :
  (n <= List.length l1 + k)%nat ->
  firstn n (l1 ++ firstn k l2)%list = firstn n (l1 ++ l2)%list.
Proof.
  intros Hn. rewrite !firstn_app, firstn_firstn.
  now replace (Nat.min (n - List.length l1) k) with (n - List.length l1)%nat by lia.
Qed.

Lemma onGameFinished_live (finished : FinishedEvent.t) (s : TournamentState)
    (m : CurrentMatchInfo) :
  currentMatch s = Some m ->
  onGameFinished finished s
  = set_matchHistory
      (finished_result finished m :: slice0 19 (matchHistory s)) s.
Proof. intros Hlive. unfold onGameFinished. now rewrite Hlive. Qed.

Lemma onGameFinished_idle (finished : FinishedEvent.t) (s : TournamentState) :
  currentMatch s = None -> onGameFinished finished s = s.
Proof. intros Hidle. unfold onGameFinished. now rewrite Hidle. Qed.

Lemma run_finished_idle (events : list FinishedEvent.t) (s : TournamentState) :
  currentMatch s = None -> run_finished events s = s.
Proof.
  intros Hidle. induction events as [| finished rest IH]; [reflexivity |].
  unfold run_finished in *. cbn [fold_left].
  now rewrite onGameFinished_idle.
Qed.

Lemma run_finished_keeps_match (events : list FinishedEvent.t) :
  forall s, currentMatch (run_finished events s) = currentMatch s.
Proof.
  induction events as [| finished rest IH]; intros s; [reflexivity |].
  unfold run_finished in *. cbn [fold_left]. rewrite IH.
  unfold onGameFinished. destruct (currentMatch s) eqn:Hlive; exact Hlive.
Qed.

Lemma run_finished_history (events : list FinishedEvent.t) :
  forall (s : TournamentState) (m : CurrentMatchInfo) (finished : FinishedEvent.t),
    currentMatch s = Some m ->
    matchHistory (run_finished (finished :: events) s)
    = firstn 20
        (rev (map (fun f => finished_result f m) (finished :: events))
         ++ matchHistory s)%list.
Proof.
  induction events as [| next rest IH]; intros s m finished Hlive.
  - unfold run_finished. cbn [fold_left]. now rewrite (onGameFinished_live _ _ m).
  - change (run_finished (finished :: next :: rest) s)
      with (run_finished (next :: rest) (onGameFinished finished s)).
    rewrite (IH _ m).
    + rewrite (onGameFinished_live _ _ m Hlive).
      cbn [matchHistory set_matchHistory]. unfold slice0.
      set (newer := rev (map (fun f => finished_result f m) (next :: rest))).
      change (rev (map (fun f => finished_result f m) (finished :: next :: rest)))
        with (newer ++ [finished_result finished m])%list.
      rewrite <- app_assoc. cbn [app].
      change (finished_result finished m :: firstn 19 (matchHistory s))
        with ([finished_result finished m] ++ firstn 19 (matchHistory s))%list.
      change (finished_result finished m :: matchHistory s)
        with ([finished_result finished m] ++ matchHistory s)%list.
      rewrite !app_assoc. apply firstn_app_firstn.
      rewrite List.length_app. cbn [List.length]. lia.
    + rewrite (onGameFinished_live _ _ m Hlive). exact Hlive.
Qed.

Lemma onGameFinished_bounded (finished : FinishedEvent.t) (s : TournamentState) :
  (List.length (matchHistory s) <= 20)%nat ->
  (List.length (matchHistory (onGameFinished finished s)) <= 20)%nat.
Proof.
  intros Hlen. unfold onGameFinished. destruct (currentMatch s); [| exact Hlen].
  cbn [matchHistory set_matchHistory List.length]. unfold slice0.
  rewrite List.length_firstn. lia.
Qed.

(** C5 (as the code has it).  With a live match, a match-finished event puts
    one new result in front of the first 19 stored entries; so after every
    non-empty sequence of such events the history is the results of the
    events, latest first, followed by the entries stored before, cut to 20
    entries.  Without a live match the events change nothing, and a history
    of at most 20 entries never grows beyond 20. *)
Theorem finished_history_capped :
  (forall (s : TournamentState) (m : CurrentMatchInfo) (finished : FinishedEvent.t),
      currentMatch s = Some m ->
      matchHistory (onGameFinished finished s)
      = finished_result finished m :: firstn 19 (matchHistory s))
  /\ (forall (s : TournamentState) (m : CurrentMatchInfo)
             (events : list FinishedEvent.t),
        currentMatch s = Some m ->
        events <> [] ->
        currentMatch (run_finished events s) = Some m
        /\ matchHistory (run_finished events s)
        = firstn 20
            (rev (map (fun f => finished_result f m) events) ++ matchHistory s)%list
        /\ (List.length (matchHistory (run_finished events s)) <= 20)%nat)
  /\ (forall (s : TournamentState) (events : list FinishedEvent.t),
        currentMatch s = None -> run_finished events s = s)
  /\ (forall (s : TournamentState) (events : list FinishedEvent.t),
        (List.length (matchHistory s) <= 20)%nat ->
        (List.length (matchHistory (run_finished events s)) <= 20)%nat).
Proof.
  split.
  { intros s m finished Hlive. now rewrite (onGameFinished_live _ _ m Hlive). }
  split.
  { intros s m [| finished rest] Hlive Hne; [contradiction |].
    split; [now rewrite run_finished_keeps_match |].
    rewrite (run_finished_history rest s m finished Hlive).
    split; [reflexivity |]. rewrite List.length_firstn. lia. }
  split; [intros s events; apply run_finished_idle |].
  intros s events. revert s.
  induction events as [| finished rest IH]; intros s Hlen; [exact Hlen |].
  change (run_finished (finished :: rest) s)
    with (run_finished rest (onGameFinished finished s)).
  apply IH. now apply onGameFinished_bounded.
Qed.

Lemma finished_history_capped_witness :
  matchHistory (run_finished [scenario_finished; scenario_finished] scenario_started)
  = [finished_result scenario_finished scenario_match;
     finished_result scenario_finished scenario_match]
  /\ winnerBotName (finished_result scenario_finished scenario_match) = Some "A"
  /\ loserBotName (finished_result scenario_finished scenario_match) = Some "B".
Proof.
  destruct finished_history_capped as (_ & Hseq & _).
  destruct (Hseq scenario_started scenario_match
              [scenario_finished; scenario_finished]) as (_ & Hhist & _).
  - reflexivity.
  - discriminate.
  - split; [rewrite Hhist; reflexivity |]. split; reflexivity.
Defined.

(** C5, as stated, fails: a snapshot of 21 results and no active match
    leaves 21 entries in the history, and a match-finished event that
    arrives then changes nothing, so the history has more than 20 entries
    after the event. *)
Lemma finished_history_over_20_without_match :
  currentMatch after_snapshot_of_21 = None
  /\ ~ (List.length
          (matchHistory (run_finished [scenario_finished] after_snapshot_of_21))
        <= 20)%nat.
Proof.
  split; [reflexivity |].
  change (~ (21 <= 20)%nat). lia.
Qed.

(** ** The clocks of the live match *)

Lemma tick_parity (n : Z) : (Z.rem n 2 =? 0) = Z.even n.
Proof.
  destruct (Z.eqb_spec (Z.rem n 2) 0) as [H | H].
  - symmetry. apply Z.even_spec. apply Z.rem_divide in H; [| lia].
    destruct H as [k ->]. exists k. lia.
  - symmetry. apply not_true_is_false. intros Heven. apply H.
    apply Z.even_spec in Heven as [k ->].
    rewrite Z.mul_comm. apply Z.rem_mul. lia.
Qed.

Lemma updateCountdown_running (now : Z) (s : TournamentState)
    (m : CurrentMatchInfo) :
  currentMatch s = Some m ->
  status s = "running" ->
  exists m',
    currentMatch (updateCountdown now s) = Some m'
    /\ lastMoveTimestamp m' = now
    /\ moveNumber m' = moveNumber m
    /\ redTimeRemainingMs m'
       = (if Z.even (moveNumber m)
          then Z.max 0 (redTimeRemainingMs m - (now - lastMoveTimestamp m))
          else redTimeRemainingMs m)
    /\ blueTimeRemainingMs m'
       = (if Z.even (moveNumber m)
          then blueTimeRemainingMs m
          else Z.max 0 (blueTimeRemainingMs m - (now - lastMoveTimestamp m))).
Proof.
  intros Hlive Hrun. unfold updateCountdown. rewrite Hlive, Hrun.
  cbn [String.eqb Ascii.eqb Bool.eqb negb]. cbv zeta.
  rewrite tick_parity.
  eexists. split; [reflexivity |]. repeat split.
Qed.

Lemma updateCountdown_not_running (now : Z) (s : TournamentState) :
  status s <> "running" -> updateCountdown now s = s.
Proof.
  intros Hrun. unfold updateCountdown. destruct (currentMatch s); [| reflexivity].
  destruct (String.eqb_spec (status s) "running"); [contradiction | reflexivity].
Qed.

Lemma updateCountdown_nonnegative (now : Z) (s : TournamentState)
    (m : CurrentMatchInfo) :
  currentMatch s = Some m ->
  clocks_nonnegative m ->
  exists m',
    currentMatch (updateCountdown now s) = Some m' /\ clocks_nonnegative m'.
Proof.
  intros Hlive [Hred Hblue]. unfold updateCountdown. rewrite Hlive.
  destruct (negb _).
  - exists m. now split.
  - eexists. split; [reflexivity |].
    unfold clocks_nonnegative. cbn [redTimeRemainingMs blueTimeRemainingMs].
    destruct (Z.rem (moveNumber m) 2 =? 0); lia.
Qed.

Lemma on_event_nonnegative (t : Instant) (ev : HubEvent) (s : TournamentState)
    (m : CurrentMatchInfo) :
  currentMatch s = Some m ->
  clocks_nonnegative m ->
  reports_nonnegative (Event t ev) ->
  exists m', currentMatch (on_event t ev s) = Some m' /\ clocks_nonnegative m'.
Proof.
  intros Hlive Hm Hev. destruct ev; cbn [on_event].
  - eexists. split; [reflexivity |]. unfold clocks_nonnegative. cbn. lia.
  - unfold onMovePlayed. rewrite Hlive.
    eexists. split; [reflexivity |]. exact Hev.
  - unfold onGameFinished. rewrite Hlive. exists m. now split.
  - exists m. now split.
  - exists m. now split.
  - unfold onTournamentStatusChanged. cbv zeta.
    destruct (_ && _); exists m; now split.
  - exists m. now split.
Qed.

Lemma run_nonnegative (inputs : list Input) :
  forall (s : TournamentState) (m : CurrentMatchInfo),
    currentMatch s = Some m ->
    clocks_nonnegative m ->
    Forall reports_nonnegative inputs ->
    exists m', currentMatch (run inputs s) = Some m' /\ clocks_nonnegative m'.
Proof.
  induction inputs as [| i rest IH]; intros s m Hlive Hm Hall.
  - exists m. now split.
  - inversion Hall as [| ? ? Hi Hrest]; subst.
    assert (Hstep : exists m1,
               currentMatch (step s i) = Some m1 /\ clocks_nonnegative m1).
    { destruct i as [t ev | now]; cbn [step].
      - now apply (on_event_nonnegative t ev s m).
      - now apply (updateCountdown_nonnegative now s m). }
    destruct Hstep as (m1 & Hlive1 & Hm1).
    unfold run. cbn [fold_left]. now apply (IH (step s i) m1).
Qed.

(** C7 (as the code has it).  Starting from a live match whose two budgets
    are not negative, after every sequence of clock ticks and push events in
    which each move-played event reports budgets that are not negative, there
    is a live match and its two budgets are not negative.  While the status
    is running, a tick takes the time elapsed since the stored timestamp from
    the budget of the side on move (red for an even move number, blue for an
    odd one), not below zero, leaves the other budget alone and stores now as
    the timestamp; while the status is not running a tick changes nothing.  A
    move-played event stores the two budgets it reports. *)
Theorem clocks_stay_nonnegative :
  (forall (s : TournamentState) (m : CurrentMatchInfo) (inputs : list Input),
      currentMatch s = Some m ->
      clocks_nonnegative m ->
      Forall reports_nonnegative inputs ->
      exists m', currentMatch (run inputs s) = Some m' /\ clocks_nonnegative m')
  /\ (forall (now : Z) (s : TournamentState) (m : CurrentMatchInfo),
        currentMatch s = Some m ->
        status s = "running" ->
        exists m',
          currentMatch (updateCountdown now s) = Some m'
          /\ lastMoveTimestamp m' = now
          /\ moveNumber m' = moveNumber m
          /\ redTimeRemainingMs m'
             = (if Z.even (moveNumber m)
                then Z.max 0 (redTimeRemainingMs m - (now - lastMoveTimestamp m))
                else redTimeRemainingMs m)
          /\ blueTimeRemainingMs m'
             = (if Z.even (moveNumber m)
                then blueTimeRemainingMs m
                else Z.max 0 (blueTimeRemainingMs m - (now - lastMoveTimestamp m))))
  /\ (forall (now : Z) (s : TournamentState),
        status s <> "running" -> updateCountdown now s = s)
  /\ (forall (now : Z) (moveEvent : MoveEvent.t) (s : TournamentState)
             (m : CurrentMatchInfo),
        currentMatch s = Some m ->
        exists m',
          currentMatch (onMovePlayed now moveEvent s) = Some m'
          /\ redTimeRemainingMs m' = MoveEvent.redTimeRemainingMs moveEvent
          /\ blueTimeRemainingMs m' = MoveEvent.blueTimeRemainingMs moveEvent
          /\ lastMoveTimestamp m' = now).
Proof.
  split; [intros s m inputs; apply run_nonnegative |].
  split; [exact updateCountdown_running |].
  split; [exact updateCountdown_not_running |].
  intros now moveEvent s m Hlive. unfold onMovePlayed. rewrite Hlive.
  eexists. split; [reflexivity |]. repeat split.
Qed.

Lemma clocks_stay_nonnegative_witness :
  exists m',
    currentMatch
      (run [Event scenario_instant (OnTournamentStatusChanged (Num 1) "started");
            Tick 6100;
            Event scenario_instant (OnMovePlayed scenario_move);
            Tick 500000]
         scenario_started) = Some m'
    /\ clocks_nonnegative m'.
Proof.
  destruct clocks_stay_nonnegative as (Hrun & _).
  apply (Hrun scenario_started scenario_match).
  - reflexivity.
  - unfold clocks_nonnegative, scenario_match.
    cbn [redTimeRemainingMs blueTimeRemainingMs]. lia.
  - repeat constructor; cbn; lia.
Defined.

(** C7, as stated, fails: a move-played event that reports a red budget of
    -5 ms leaves a live match whose red budget is negative. *)
Lemma clock_negative_after_move :
  exists m',
    currentMatch
      (run [Event scenario_instant (OnMovePlayed overrun_move)] scenario_started)
    = Some m'
    /\ redTimeRemainingMs m' < 0.
Proof.
  eexists. split; [reflexivity |].
  cbn [played redTimeRemainingMs overrun_move MoveEvent.redTimeRemainingMs]. lia.
Qed.

(** ** The snapshot fetch *)

Lemma fetchState_failure (reply : HttpReply Snapshot.t) (this : TournamentStore)
    (err : Error) :
  fetch_failure reply = Some err ->
  fetchState reply this = (logged "Failed to fetch:" err this, Resolved tt).
Proof.
  intros Hfail. unfold fetchState, try_catch, bind.
  destruct reply as [e | [ok' body]]; cbn [fetch_failure ok json] in Hfail.
  - injection Hfail as ->. reflexivity.
  - cbn [fetch ret ok json]. destruct ok'; cbn [negb] in *.
    + destruct body as [data | e]; [discriminate |].
      injection Hfail as ->. reflexivity.
    + injection Hfail as <-. reflexivity.
Qed.

Lemma fetchState_success (data : Snapshot.t) (this : TournamentStore) :
  fetchState (snapshot_reply data) this
  = (assigned (apply_snapshot data) this, Resolved tt).
Proof. reflexivity. Qed.

Lemma fetch_failure_or_snapshot (reply : HttpReply Snapshot.t) :
  (exists err, fetch_failure reply = Some err)
  \/ (exists data, reply = snapshot_reply data).
Proof.
  destruct reply as [e | [ok' body]]; [left; now exists e |].
  destruct ok'; [| left; eexists; reflexivity].
  destruct body as [data | e]; [right; now exists data | left; now exists e].
Qed.

Lemma fetchState_resolves (reply : HttpReply Snapshot.t) (this : TournamentStore) :
  snd (fetchState reply this) = Resolved tt.
Proof.
  destruct (fetch_failure_or_snapshot reply) as [[err Hfail] | [data ->]].
  - now rewrite (fetchState_failure _ _ err Hfail).
  - now rewrite fetchState_success.
Qed.

Lemma fetchState_keeps_connection (reply : HttpReply Snapshot.t)
    (this : TournamentStore) :
  connectionState (state (fst (fetchState reply this)))
  = connectionState (state this)
  /\ errorMessage (state (fst (fetchState reply this)))
     = errorMessage (state this).
Proof.
  destruct (fetch_failure_or_snapshot reply) as [[err Hfail] | [data ->]].
  - rewrite (fetchState_failure _ _ err Hfail). split; reflexivity.
  - rewrite fetchState_success. split; reflexivity.
Qed.

(** C8.  When the snapshot request fails (the network rejects it, the
    response is not ok, or its body does not parse), [fetchState] returns
    normally, every field of the tournament state has the value it had
    before the call, the other fields of the store are unchanged as well,
    and the error is printed on the console. *)
Theorem fetch_failure_leaves_state
    (reply : HttpReply Snapshot.t) (this : TournamentStore) (err : Error) :
  fetch_failure reply = Some err ->
  snd (fetchState reply this) = Resolved tt
  /\ state (fst (fetchState reply this)) = state this
  /\ connection (fst (fetchState reply this)) = connection this
  /\ reconnectAttempts (fst (fetchState reply this)) = reconnectAttempts this
  /\ countdownInterval (fst (fetchState reply this)) = countdownInterval this
  /\ console (fst (fetchState reply this))
     = (console this ++ [("Failed to fetch:", err)])%list.
Proof.
  intros Hfail. rewrite (fetchState_failure reply this err Hfail).
  repeat split.
Qed.

Lemma fetch_failure_leaves_state_witness :
  state
    (fst (fetchState (Responded (mkResponse false (Rejected (mkError "no body"))))
            (assigned (fun _ => scenario_started) new_TournamentStore)))
  = scenario_started
  /\ state
       (fst (fetchState (NetworkError (mkError "Failed to fetch"))
               (assigned (fun _ => scenario_started) new_TournamentStore)))
     = scenario_started.
Proof.
  split.
  - exact (proj1 (proj2 (fetch_failure_leaves_state
                           (Responded (mkResponse false (Rejected (mkError "no body"))))
                           (assigned (fun _ => scenario_started) new_TournamentStore)
                           (mkError "Failed to fetch state") eq_refl))).
  - exact (proj1 (proj2 (fetch_failure_leaves_state
                           (NetworkError (mkError "Failed to fetch"))
                           (assigned (fun _ => scenario_started) new_TournamentStore)
                           (mkError "Failed to fetch") eq_refl))).
Defined.

(** ** The live match at the end of a match *)

(** C2 (as the code has it).  A match-finished event leaves the live match
    as it is: the handler only writes the history.  A snapshot fetch whose
    response reports no active match sets the live match to null. *)
Theorem live_match_kept_on_finish_cleared_by_snapshot :
  (forall (t : Instant) (finished : FinishedEvent.t) (s : TournamentState)
          (m : CurrentMatchInfo),
      currentMatch s = Some m ->
      currentMatch (on_event t (OnGameFinished finished) s) = Some m)
  /\ (forall (data : Snapshot.t) (this : TournamentStore),
        Snapshot.currentMatch data = None ->
        currentMatch (state (fst (fetchState (snapshot_reply data) this))) = None).
Proof.
  split.
  - intros t finished s m Hlive. cbn [on_event].
    now rewrite (onGameFinished_live _ _ m Hlive).
  - intros data this Hnone. rewrite fetchState_success.
    unfold assigned, assign, apply_snapshot. cbn. now rewrite Hnone.
Qed.

Lemma live_match_kept_on_finish_cleared_by_snapshot_witness :
  currentMatch
    (on_event scenario_instant (OnGameFinished scenario_finished) scenario_started)
  = Some scenario_match
  /\ currentMatch
       (state
          (fst (fetchState (snapshot_reply snapshot_of_21)
                  (assigned (fun _ => scenario_started) new_TournamentStore))))
     = None.
Proof.
  destruct live_match_kept_on_finish_cleared_by_snapshot as [Hfinish Hfetch].
  split; [apply Hfinish | apply Hfetch]; reflexivity.
Defined.

(** C2, as stated, fails: after the match-finished event of the scenario the
    live match is still there. *)
Lemma live_match_survives_finish :
  currentMatch scenario_started <> None
  /\ currentMatch
       (on_event scenario_instant (OnGameFinished scenario_finished)
          scenario_started)
     <> None.
Proof. split; discriminate. Qed.

(** ** The order of the roster *)

Lemma sort_insert_HdRel (c a : AIBot) (l : list AIBot) :
  rated_before c a -> HdRel rated_before c l -> HdRel rated_before c (sort_insert by_elo_descending a l).
Proof.
  intros Hca Hcl. destruct l as [| b rest]; cbn [sort_insert].
  - now constructor.
  - destruct (by_elo_descending a b <=? 0); constructor; [exact Hca |].
    now apply HdRel_inv in Hcl.
Qed.

Lemma sort_insert_Sorted (a : AIBot) (l : list AIBot) :
  Sorted rated_before l -> Sorted rated_before (sort_insert by_elo_descending a l).
Proof.
  induction l as [| b rest IH]; intros Hsorted; cbn [sort_insert].
  - repeat constructor.
  - apply Sorted_inv in Hsorted as [Hrest Hhd].
    destruct (Z.leb_spec (by_elo_descending a b) 0) as [Hle | Hgt].
    + constructor; [now constructor |].
      constructor. unfold rated_before, by_elo_descending in *. lia.
    + constructor; [now apply IH |].
      apply sort_insert_HdRel; [| exact Hhd].
      unfold rated_before, by_elo_descending in *. lia.
Qed.

Lemma js_sort_descending (l : list AIBot) :
  descending_elo (js_sort by_elo_descending l).
Proof.
  unfold descending_elo. induction l as [| a rest IH]; cbn [js_sort].
  - constructor.
  - now apply sort_insert_Sorted.
Qed.

Lemma sort_insert_Permutation {A : Type} (cmp : A -> A -> Z) (a : A) (l : list A) :
  Permutation (a :: l) (sort_insert cmp a l).
Proof.
  induction l as [| b rest IH]; cbn [sort_insert]; [reflexivity |].
  destruct (cmp a b <=? 0); [reflexivity |].
  rewrite perm_swap. now apply perm_skip.
Qed.

Lemma js_sort_Permutation {A : Type} (cmp : A -> A -> Z) (l : list A) :
  Permutation l (js_sort cmp l).
Proof.
  induction l as [| a rest IH]; cbn [js_sort]; [reflexivity |].
  rewrite <- sort_insert_Permutation. now apply perm_skip.
Qed.

(** The ratings-updated handler stores the reported bots in descending order
    of rating. *)
Lemma onELOUpdated_descending (reported : list AIBot) (s : TournamentState) :
  descending_elo (bots (onELOUpdated reported s))
  /\ Permutation reported (bots (onELOUpdated reported s)).
Proof.
  unfold onELOUpdated. cbn [bots set_bots].
  split; [apply js_sort_descending | apply js_sort_Permutation].
Qed.

(** A snapshot fetch stores the bots of the snapshot in descending order of
    rating. *)
Lemma fetchState_descending (data : Snapshot.t) (this : TournamentStore) :
  descending_elo (bots (state (fst (fetchState (snapshot_reply data) this))))
  /\ Permutation (or_empty (Snapshot.bots data))
       (bots (state (fst (fetchState (snapshot_reply data) this)))).
Proof.
  rewrite fetchState_success. unfold assigned, assign, apply_snapshot.
  cbn [fst state bots set_bots set_status set_progress set_matchHistory
         set_currentMatch set_startTimeUtc set_endTimeUtc].
  split; [apply js_sort_descending | apply js_sort_Permutation].
Qed.

(** C3.  The ratings-updated handler and the snapshot fetch sort the roster
    in descending order of rating, but the tournament-completed handler
    stores the final standings in the order they are reported: with
    standings of ratings 584 then 616 the stored roster is not in
    descending order. *)
Theorem tournament_completed_roster_not_sorted :
  (forall (t : Instant) (finalStandings : list AIBot) (totalGames durationMs : Z)
          (s : TournamentState),
      bots (on_event t (OnTournamentCompleted finalStandings totalGames durationMs) s)
      = finalStandings)
  /\ map elo
       (bots (on_event scenario_instant
                (OnTournamentCompleted standings_by_name 1 5000) initial_state))
     = [584; 616]
  /\ ~ descending_elo
         (bots (on_event scenario_instant
                  (OnTournamentCompleted standings_by_name 1 5000) initial_state))
  /\ map elo
       (bots (on_event scenario_instant (OnELOUpdated standings_by_name)
                initial_state))
     = [616; 584].
Proof.
  split; [reflexivity |].
  split; [reflexivity |].
  split; [| reflexivity].
  intros Hsorted. cbn in Hsorted.
  apply Sorted_inv in Hsorted as [_ Hhd].
  apply HdRel_inv in Hhd. unfold rated_before in Hhd. cbn in Hhd. lia.
Qed.

(** ** The commands *)

Lemma startTournament_refused (body : completion ErrorBody.t)
    (refresh : HttpReply Snapshot.t) (this : TournamentStore) :
  startTournament (Responded (mkResponse false body)) refresh this
  = match body with
    | Resolved data =>
        (assigned
           (set_errorMessage
              (Some (or_string (ErrorBody.message data) "Failed to start")))
           this,
         Resolved false)
    | Rejected err =>
        (assigned
           (set_errorMessage (Some ("Failed to start: " ++ message err))) this,
         Resolved false)
    end.
Proof. destruct body; reflexivity. Qed.

Lemma pauseTournament_refused (body : completion ErrorBody.t)
    (refresh : HttpReply Snapshot.t) (this : TournamentStore) :
  pauseTournament (Responded (mkResponse false body)) refresh this
  = (this, Resolved false).
Proof. reflexivity. Qed.

Lemma resumeTournament_refused (body : completion ErrorBody.t)
    (refresh : HttpReply Snapshot.t) (this : TournamentStore) :
  resumeTournament (Responded (mkResponse false body)) refresh this
  = (this, Resolved false).
Proof. reflexivity. Qed.

(** On a success response each command fetches the snapshot and returns
    true. *)
Lemma commands_accepted (body : completion ErrorBody.t)
    (refresh : HttpReply Snapshot.t) (this : TournamentStore) :
  startTournament (Responded (mkResponse true body)) refresh this
  = (fst (fetchState refresh this), Resolved true)
  /\ pauseTournament (Responded (mkResponse true body)) refresh this
     = (fst (fetchState refresh this), Resolved true)
  /\ resumeTournament (Responded (mkResponse true body)) refresh this
     = (fst (fetchState refresh this), Resolved true).
Proof.
  pose proof (fetchState_resolves refresh this) as Hres.
  unfold startTournament, pauseTournament, resumeTournament, try_catch, bind.
  cbn [fetch ret ok negb].
  destruct (fetchState refresh this) as [this' r]. cbn [fst snd] in *. subst r.
  repeat split.
Qed.

(** When the request itself is rejected each command stores its own message
    and returns false. *)
Lemma commands_network_error (e : Error) (refresh : HttpReply Snapshot.t)
    (this : TournamentStore) :
  startTournament (NetworkError e) refresh this
  = (assigned (set_errorMessage (Some ("Failed to start: " ++ message e))) this,
     Resolved false)
  /\ pauseTournament (NetworkError e) refresh this
     = (assigned (set_errorMessage (Some ("Failed to pause: " ++ message e))) this,
        Resolved false)
  /\ resumeTournament (NetworkError e) refresh this
     = (assigned (set_errorMessage (Some ("Failed to resume: " ++ message e))) this,
        Resolved false).
Proof. repeat split. Qed.

(** No command throws: each returns a boolean. *)
Lemma commands_resolve (reply : HttpReply ErrorBody.t)
    (refresh : HttpReply Snapshot.t) (this : TournamentStore) :
  (exists b, snd (startTournament reply refresh this) = Resolved b)
  /\ (exists b, snd (pauseTournament reply refresh this) = Resolved b)
  /\ (exists b, snd (resumeTournament reply refresh this) = Resolved b).
Proof.
  destruct reply as [e | [ok' body]].
  - destruct (commands_network_error e refresh this) as (-> & -> & ->).
    repeat split; now exists false.
  - destruct ok'.
    + destruct (commands_accepted body refresh this) as (-> & -> & ->).
      repeat split; now exists true.
    + rewrite startTournament_refused, pauseTournament_refused,
        resumeTournament_refused.
      destruct body; repeat split; now exists false.
Qed.

(** C4.  On a response that is not ok, [startTournament] stores the message
    of the server (or "Failed to start") and returns false, whereas
    [pauseTournament] and [resumeTournament] return false and leave the store,
    and so [errorMessage], exactly as it was: the message the server sent with
    the refusal is not stored. *)
Theorem pause_resume_drop_server_message :
  (forall (body : completion ErrorBody.t) (refresh : HttpReply Snapshot.t)
          (this : TournamentStore),
      pauseTournament (Responded (mkResponse false body)) refresh this
      = (this, Resolved false)
      /\ resumeTournament (Responded (mkResponse false body)) refresh this
         = (this, Resolved false))
  /\ (forall refresh : HttpReply Snapshot.t,
        errorMessage
          (state (fst (startTournament refused_reply refresh new_TournamentStore)))
        = Some "Tournament is not running"
        /\ errorMessage
             (state (fst (pauseTournament refused_reply refresh new_TournamentStore)))
           = None
        /\ errorMessage
             (state (fst (resumeTournament refused_reply refresh new_TournamentStore)))
           = None).
Proof.
  split.
  - intros body refresh this. split; reflexivity.
  - intros refresh. repeat split.
Qed.

(** ** Which operations can throw *)

Lemma connect_already_connected (started : completion unit)
    (reply : HttpReply Snapshot.t) (this : TournamentStore) :
  connection this = Some HubConnected ->
  connect started reply this = (this, Resolved tt).
Proof. intros Hc. unfold connect. now rewrite Hc. Qed.

Lemma connect_start_rejected (e : Error) (reply : HttpReply Snapshot.t)
    (this : TournamentStore) :
  connection this <> Some HubConnected ->
  connect (Rejected e) reply this
  = (assigned
       (fun s =>
          set_errorMessage (Some ("Failed to connect: " ++ message e))
            (set_connectionState disconnected s))
       (connecting_store this),
     Rejected e).
Proof.
  intros Hc. unfold connect.
  destruct (connection this) as [[] |]; try reflexivity. now contradiction Hc.
Qed.

Lemma connect_start_resolved (reply : HttpReply Snapshot.t)
    (this : TournamentStore) :
  connection this <> Some HubConnected ->
  connect (Resolved tt) reply this
  = (fst (fetchState reply
            (mkTournamentStore
               (set_connectionState connected (state (connecting_store this)))
               (Some HubConnected) 0 (countdownInterval this) (console this))),
     Resolved tt).
Proof.
  intros Hc.
  set (ready := mkTournamentStore _ _ _ _ _).
  pose proof (fetchState_resolves reply ready) as Hres.
  assert (Hbody :
            connect (Resolved tt) reply this
            = match fetchState reply ready with
              | (this', Resolved a) => (this', Resolved a)
              | (this', Rejected err) =>
                  (assigned
                     (fun s =>
                        set_errorMessage
                          (Some ("Failed to connect: " ++ message err))
                          (set_connectionState disconnected s)) this',
                   Rejected err)
              end).
  { unfold connect.
    destruct (connection this) as [[] |]; try reflexivity. now contradiction Hc. }
  rewrite Hbody.
  destruct (fetchState reply ready) as [this' r]. cbn [fst snd] in *. subst r.
  destruct tt. reflexivity.
Qed.

Lemma disconnect_stop_resolved (this : TournamentStore) :
  disconnect (Resolved tt) this
  = (mkTournamentStore (set_connectionState disconnected (state this)) None
       (reconnectAttempts this) false (console this),
     Resolved tt).
Proof.
  unfold disconnect.
  destruct this as [s c n armed log]. cbn [countdownInterval connection].
  destruct armed, c; reflexivity.
Qed.

Lemma disconnect_without_connection (stopped : completion unit)
    (this : TournamentStore) :
  connection this = None ->
  disconnect stopped this
  = (mkTournamentStore (set_connectionState disconnected (state this)) None
       (reconnectAttempts this) false (console this),
     Resolved tt).
Proof.
  intros Hc. unfold disconnect.
  destruct this as [s c n armed log]. cbn [countdownInterval connection] in *.
  subst c. destruct armed; reflexivity.
Qed.

Lemma disconnect_stop_rejected (e : Error) (this : TournamentStore)
    (hub : HubConnectionState) :
  connection this = Some hub ->
  disconnect (Rejected e) this
  = (mkTournamentStore (state this) (Some hub) (reconnectAttempts this) false
       (console this),
     Rejected e).
Proof.
  intros Hc. unfold disconnect.
  destruct this as [s c n armed log]. cbn [countdownInterval connection] in *.
  subst c. destruct armed; reflexivity.
Qed.

Lemma callbacks_resolve (error : option Error) (connectionId : option string)
    (reply : HttpReply Snapshot.t) (this : TournamentStore) :
  snd (onreconnecting error this) = Resolved tt
  /\ snd (onreconnected connectionId reply this) = Resolved tt
  /\ snd (onclose error this) = Resolved tt.
Proof.
  split; [reflexivity |]. split.
  - unfold onreconnected, bind, set_connection, assign.
    apply fetchState_resolves.
  - destruct error; reflexivity.
Qed.

(** C1 (as the code has it).  [fetchState], the three commands, every event
    handler, the clock tick and the three connection callbacks always return
    normally.  [connect] returns normally when the hub is already connected
    or when the hub starts; when the start of the hub is rejected it sets the
    connection state to disconnected and the error message to
    "Failed to connect: " followed by the message of the error, and then
    throws that same error to its caller.  [disconnect] returns normally,
    with the connection state disconnected, when there is no connection or
    when stopping the hub succeeds; when stopping the hub is rejected it
    throws that error. *)
Theorem failures_reported_connect_rethrows :
  (forall (reply : HttpReply Snapshot.t) (this : TournamentStore),
      snd (fetchState reply this) = Resolved tt)
  /\ (forall (reply : HttpReply ErrorBody.t) (refresh : HttpReply Snapshot.t)
             (this : TournamentStore),
        (exists b, snd (startTournament reply refresh this) = Resolved b)
        /\ (exists b, snd (pauseTournament reply refresh this) = Resolved b)
        /\ (exists b, snd (resumeTournament reply refresh this) = Resolved b))
  /\ (forall (i : Input) (this : TournamentStore), snd (feed i this) = Resolved tt)
  /\ (forall (error : option Error) (connectionId : option string)
             (reply : HttpReply Snapshot.t) (this : TournamentStore),
        snd (onreconnecting error this) = Resolved tt
        /\ snd (onreconnected connectionId reply this) = Resolved tt
        /\ snd (onclose error this) = Resolved tt)
  /\ (forall (started : completion unit) (reply : HttpReply Snapshot.t)
             (this : TournamentStore),
        connection this = Some HubConnected ->
        connect started reply this = (this, Resolved tt))
  /\ (forall (reply : HttpReply Snapshot.t) (this : TournamentStore),
        snd (connect (Resolved tt) reply this) = Resolved tt)
  /\ (forall (e : Error) (reply : HttpReply Snapshot.t) (this : TournamentStore),
        connection this <> Some HubConnected ->
        snd (connect (Rejected e) reply this) = Rejected e
        /\ connectionState (state (fst (connect (Rejected e) reply this)))
           = disconnected
        /\ errorMessage (state (fst (connect (Rejected e) reply this)))
           = Some ("Failed to connect: " ++ message e))
  /\ (forall this : TournamentStore,
        snd (disconnect (Resolved tt) this) = Resolved tt
        /\ connectionState (state (fst (disconnect (Resolved tt) this)))
           = disconnected)
  /\ (forall (stopped : completion unit) (this : TournamentStore),
        connection this = None ->
        snd (disconnect stopped this) = Resolved tt
        /\ connectionState (state (fst (disconnect stopped this))) = disconnected)
  /\ (forall (e : Error) (this : TournamentStore) (hub : HubConnectionState),
        connection this = Some hub ->
        snd (disconnect (Rejected e) this) = Rejected e).
Proof.
  split; [exact fetchState_resolves |].
  split; [exact commands_resolve |].
  split; [exact feed_resolves |].
  split; [exact callbacks_resolve |].
  split; [exact connect_already_connected |].
  split.
  { intros reply this.
    destruct (connection this) as [[] |] eqn:Hc;
      try (rewrite connect_start_resolved; [reflexivity | congruence]).
    now rewrite connect_already_connected. }
  split.
  { intros e reply this Hc. rewrite (connect_start_rejected e reply this Hc).
    repeat split. }
  split.
  { intros this. rewrite disconnect_stop_resolved. split; reflexivity. }
  split.
  { intros stopped this Hc. rewrite (disconnect_without_connection _ _ Hc).
    split; reflexivity. }
  intros e this hub Hc. now rewrite (disconnect_stop_rejected e this hub Hc).
Qed.

Lemma failures_reported_connect_rethrows_witness :
  connectionState
    (state (fst (connect (Rejected (mkError "refused"))
                   (NetworkError (mkError "offline")) new_TournamentStore)))
  = disconnected
  /\ errorMessage
       (state (fst (connect (Rejected (mkError "refused"))
                      (NetworkError (mkError "offline")) new_TournamentStore)))
     = Some "Failed to connect: refused"
  /\ snd (disconnect (Rejected (mkError "refused")) new_TournamentStore)
     = Resolved tt.
Proof.
  destruct failures_reported_connect_rethrows
    as (_ & _ & _ & _ & _ & _ & Hconnect & _ & Hnone & _).
  destruct (Hconnect (mkError "refused") (NetworkError (mkError "offline"))
              new_TournamentStore) as (_ & Hstate & Hmsg).
  - discriminate.
  - split; [exact Hstate |]. split; [exact Hmsg |].
    apply Hnone. reflexivity.
Defined.

(** C1, as stated, fails: when the hub refuses to start, [connect] throws
    the error to its caller. *)
Lemma connect_throws_to_caller :
  snd (connect (Rejected (mkError "refused")) (NetworkError (mkError "offline"))
         new_TournamentStore)
  = Rejected (mkError "refused").
Proof. reflexivity. Qed.

(** ** The scenario of the specification, run through the handlers *)

Example scenario_run :
  let moved :=
    run [Event scenario_instant (OnMovePlayed scenario_move)] scenario_started in
  let finished :=
    run [Event scenario_instant (OnGameFinished scenario_finished)] moved in
  option_map board (currentMatch moved) = Some [mkBoardCell 3 4 "red"]
  /\ option_map moveNumber (currentMatch moved) = Some 1
  /\ option_map redTimeRemainingMs (currentMatch moved) = Some 415000
  /\ map winnerBotName (matchHistory finished) = [Some "A"]
  /\ map loserBotName (matchHistory finished) = [Some "B"]
  /\ currentMatch finished = currentMatch moved.
Proof. repeat split. Qed.

(** * Further properties of the store *)

(** ** The sorted view of the roster *)

Lemma sort_insert_sorted_head (a : AIBot) (l : list AIBot) :
  HdRel rated_before a l -> sort_insert by_elo_descending a l = a :: l.
Proof.
  intros Hhd. destruct l as [| b rest]; [reflexivity |].
  cbn [sort_insert]. apply HdRel_inv in Hhd.
  unfold rated_before in Hhd. unfold by_elo_descending.
  destruct (Z.leb_spec (elo b - elo a) 0); [reflexivity | lia].
Qed.

Lemma js_sort_fixes_descending (l : list AIBot) :
  descending_elo l -> js_sort by_elo_descending l = l.
Proof.
  unfold descending_elo. induction l as [| a rest IH]; intros Hsorted.
  - reflexivity.
  - apply Sorted_inv in Hsorted as [Hrest Hhd].
    cbn [js_sort]. rewrite (IH Hrest). now apply sort_insert_sorted_head.
Qed.

Lemma sort_insert_rated (e : Z) (a : AIBot) (l : list AIBot) :
  rated e (sort_insert by_elo_descending a l) = rated e (a :: l).
Proof.
  unfold rated. induction l as [| b rest IH]; [reflexivity |].
  cbn [sort_insert]. unfold by_elo_descending at 1.
  destruct (Z.leb_spec (elo b - elo a) 0) as [Hle | Hgt]; [reflexivity |].
  cbn [filter] in *. rewrite IH.
  destruct (Z.eqb_spec (elo a) e) as [Ha | Ha];
    destruct (Z.eqb_spec (elo b) e) as [Hb | Hb]; try reflexivity.
  lia.
Qed.

(** X1.  [sortedBots] returns the bots of the state in descending order of
    rating, whatever order the state holds them in: a rearrangement of the
    stored roster in which every bot is rated at least as high as the next. *)
Theorem sortedBots_descending_rearrangement (this : TournamentStore) :
  descending_elo (sortedBots this)
  /\ Permutation (bots (state this)) (sortedBots this)
  /\ List.length (sortedBots this) = List.length (bots (state this)).
Proof.
  unfold sortedBots.
  split; [apply js_sort_descending |].
  split; [apply js_sort_Permutation |].
  symmetry. apply Permutation_length, js_sort_Permutation.
Qed.

(** X2.  The sort of the roster is stable: in the roster stored by the
    ratings-updated handler, and in [sortedBots], the bots that share a
    rating stand in the order in which they were reported or stored. *)
Theorem roster_sort_keeps_order_of_ties (e : Z) :
  (forall (reported : list AIBot) (s : TournamentState),
      rated e (bots (onELOUpdated reported s)) = rated e reported)
  /\ (forall this : TournamentStore,
        rated e (sortedBots this) = rated e (bots (state this))).
Proof.
  assert (Hstable : forall l, rated e (js_sort by_elo_descending l) = rated e l).
  { induction l as [| a rest IH]; [reflexivity |].
    cbn [js_sort]. rewrite sort_insert_rated.
    unfold rated in *. cbn [filter]. now rewrite IH. }
  split.
  - intros reported s. apply Hstable.
  - intros this. apply Hstable.
Qed.

(** X3.  Right after a ratings-updated event or a successful snapshot fetch
    [sortedBots] is the stored roster itself: sorting the roster the store
    has just sorted changes nothing. *)
Theorem sortedBots_is_roster_after_update :
  (forall (t : Instant) (reported : list AIBot) (this : TournamentStore),
      sortedBots (fst (deliver t (OnELOUpdated reported) this))
      = bots (state (fst (deliver t (OnELOUpdated reported) this))))
  /\ (forall (data : Snapshot.t) (this : TournamentStore),
        sortedBots (fst (fetchState (snapshot_reply data) this))
        = bots (state (fst (fetchState (snapshot_reply data) this)))).
Proof.
  split.
  - intros t reported this. unfold sortedBots.
    apply js_sort_fixes_descending.
    unfold deliver, assign. cbn [fst state on_event].
    apply onELOUpdated_descending.
  - intros data this. unfold sortedBots.
    apply js_sort_fixes_descending, fetchState_descending.
Qed.

(** ** The recent matches *)

(** X4.  [recentMatches] is the front of the stored history, cut at 50
    entries; when the store has a live match, after a match-finished event it
    is the whole history, and the 20 entries the page shows of it are the
    new result followed by the 19 entries that were first before. *)
Theorem recentMatches_front_of_history :
  (forall this : TournamentStore,
      exists older,
        matchHistory (state this) = (recentMatches this ++ older)%list
        /\ List.length (recentMatches this)
           = Nat.min 50 (List.length (matchHistory (state this))))
  /\ (forall (t : Instant) (finished : FinishedEvent.t) (this : TournamentStore)
             (m : CurrentMatchInfo),
        currentMatch (state this) = Some m ->
        let after := fst (deliver t (OnGameFinished finished) this) in
        recentMatches after = matchHistory (state after)
        /\ slice0 20 (recentMatches after)
           = finished_result finished m
             :: firstn 19 (matchHistory (state this))).
Proof.
  split.
  - intros this. exists (skipn 50 (matchHistory (state this))).
    unfold recentMatches, slice0.
    split; [now rewrite firstn_skipn | apply List.length_firstn].
  - intros t finished this m Hlive after. subst after.
    unfold deliver, assign, recentMatches, slice0. cbn [fst state on_event].
    rewrite (onGameFinished_live _ _ m Hlive).
    cbn [matchHistory set_matchHistory]. unfold slice0.
    set (kept := firstn 19 (matchHistory (state this))).
    assert (Hkept : (List.length kept <= 19)%nat).
    { subst kept. rewrite List.length_firstn. lia. }
    assert (Hall : forall n, (20 <= n)%nat ->
                firstn n (finished_result finished m :: kept)
                = finished_result finished m :: kept).
    { intros n Hn. apply firstn_all2. cbn [List.length]. lia. }
    split.
    + apply Hall. lia.
    + rewrite (Hall 50%nat) by lia. apply Hall. lia.
Qed.

Lemma recentMatches_front_of_history_witness :
  recentMatches
    (fst (deliver scenario_instant (OnGameFinished scenario_finished)
            (assigned (fun _ => scenario_started) new_TournamentStore)))
  = [finished_result scenario_finished scenario_match].
Proof.
  destruct recentMatches_front_of_history as [_ Hfinish].
  destruct (Hfinish scenario_instant scenario_finished
              (assigned (fun _ => scenario_started) new_TournamentStore)
              scenario_match eq_refl) as [Hrecent _].
  rewrite Hrecent. reflexivity.
Defined.

(** ** The formatting helpers *)

Lemma below_60_cases (n : Z) :
  0 <= n < 60 -> exists k : nat, (k < 60)%nat /\ n = Z.of_nat k.
Proof. intros Hn. exists (Z.to_nat n). lia. Qed.

Lemma padStart_two_digits (n : Z) :
  0 <= n < 60 ->
  String.length (padStart 2 "0" (number_to_string n)) = 2%nat
  /\ padStart 2 "0" (number_to_string n)
     = (if n <? 10 then "0" ++ number_to_string n else number_to_string n).
Proof.
  intros Hn. destruct (below_60_cases n Hn) as (k & Hk & ->).
  do 60 (destruct k as [| k]; [split; reflexivity |]).
  lia.
Qed.

Lemma seconds_of_minute (ms : Z) :
  0 <= ms ->
  Z.rem (ms / 1000) 60 = (ms / 1000) mod 60
  /\ 0 <= (ms / 1000) mod 60 < 60
  /\ ms / 1000 / 60 = ms / 60000.
Proof.
  intros Hms.
  assert (0 <= ms / 1000) by (apply Z.div_pos; lia).
  split; [apply Z.rem_mod_nonneg; lia |].
  split; [apply Z.mod_pos_bound; lia |].
  rewrite Z.div_div by lia. reflexivity.
Qed.

(** X5.  For a time that is not negative [formatTime] shows the whole
    minutes, a colon, and the seconds of the minute on exactly two
    characters, with a leading zero below ten. *)
Theorem formatTime_two_digit_seconds (ms : Z) :
  0 <= ms ->
  exists ss,
    formatTime ms = number_to_string (ms / 60000) ++ ":" ++ ss
    /\ String.length ss = 2%nat
    /\ ss = (if (ms / 1000) mod 60 <? 10
             then "0" ++ number_to_string ((ms / 1000) mod 60)
             else number_to_string ((ms / 1000) mod 60)).
Proof.
  intros Hms. destruct (seconds_of_minute ms Hms) as (Hrem & Hsec & Hmin).
  destruct (padStart_two_digits _ Hsec) as [Hlen Hpad].
  exists (padStart 2 "0" (number_to_string ((ms / 1000) mod 60))).
  unfold formatTime. cbv zeta. rewrite Hrem, Hmin.
  split; [reflexivity |]. split; [exact Hlen | exact Hpad].
Qed.

Lemma formatTime_two_digit_seconds_witness :
  formatTime 420000 = "7:00" /\ formatTime 65999 = "1:05".
Proof.
  split.
  - destruct (formatTime_two_digit_seconds 420000) as (ss & -> & _ & ->);
      [lia | reflexivity].
  - destruct (formatTime_two_digit_seconds 65999) as (ss & -> & _ & ->);
      [lia | reflexivity].
Defined.

(** X6.  For a duration that is not negative [formatDuration] gives, below
    one hour, the whole minutes and the seconds of the minute, and from one
    hour on the whole hours and the minutes of the hour, without the
    seconds. *)
Theorem formatDuration_below_and_from_one_hour (ms : Z) :
  0 <= ms ->
  formatDuration ms
  = (if ms <? 3600000
     then number_to_string (ms / 60000) ++ "m "
          ++ number_to_string ((ms / 1000) mod 60) ++ "s"
     else number_to_string (ms / 3600000) ++ "h "
          ++ number_to_string ((ms / 60000) mod 60) ++ "m").
Proof.
  intros Hms. destruct (seconds_of_minute ms Hms) as (Hrem & _ & Hmin).
  unfold formatDuration. cbv zeta. rewrite Hrem, Hmin.
  assert (Hhours : ms / 60000 / 60 = ms / 3600000)
    by (rewrite Z.div_div by lia; reflexivity).
  rewrite Hhours.
  assert (0 <= ms / 60000) by (apply Z.div_pos; lia).
  rewrite (Z.rem_mod_nonneg (ms / 60000) 60) by lia.
  destruct (Z.ltb_spec ms 3600000) as [Hlt | Hge].
  - rewrite (Z.div_small ms 3600000) by lia. reflexivity.
  - assert (1 <= ms / 3600000) by (apply Z.div_le_lower_bound; lia).
    destruct (Z.ltb_spec 0 (ms / 3600000)); [reflexivity | lia].
Qed.

Lemma formatDuration_below_and_from_one_hour_witness :
  formatDuration 5000 = "0m 5s" /\ formatDuration 3725000 = "1h 2m".
Proof.
  split.
  - rewrite (formatDuration_below_and_from_one_hour 5000); [reflexivity | lia].
  - rewrite (formatDuration_below_and_from_one_hour 3725000); [reflexivity | lia].
Defined.

Lemma number_to_string_negative (n : Z) :
  n < 0 -> exists digits, number_to_string n = "-" ++ digits.
Proof.
  intros Hn. destruct n as [| p | p]; try lia.
  eexists. reflexivity.
Qed.

(** X7.  The sign shown for a rating and its colour class go together,
    around the base rating 600: above it the change is shown with a plus
    sign and the class is green, below it the change starts with a minus
    sign and the class is red, and at 600 the text is "+0" and the class is
    gray. *)
Theorem elo_change_text_and_class (bot : AIBot) :
  (600 < elo bot ->
     formatELOChange bot = "+" ++ number_to_string (elo bot - 600)
     /\ getELOChangeClass bot = "text-green-600")
  /\ (elo bot = 600 ->
        formatELOChange bot = "+0" /\ getELOChangeClass bot = "text-gray-500")
  /\ (elo bot < 600 ->
        (exists digits, formatELOChange bot = "-" ++ digits)
        /\ formatELOChange bot = number_to_string (elo bot - 600)
        /\ getELOChangeClass bot = "text-red-600").
Proof.
  unfold formatELOChange, getELOChangeClass. cbv zeta.
  split; [| split].
  - intros Hup.
    destruct (Z.leb_spec 0 (elo bot - 600)); [| lia].
    destruct (Z.ltb_spec 0 (elo bot - 600)); [| lia].
    split; reflexivity.
  - intros ->. split; reflexivity.
  - intros Hdown.
    destruct (Z.leb_spec 0 (elo bot - 600)); [lia |].
    destruct (Z.ltb_spec 0 (elo bot - 600)); [lia |].
    destruct (Z.ltb_spec (elo bot - 600) 0); [| lia].
    split; [apply number_to_string_negative; lia |].
    split; reflexivity.
Qed.

Lemma elo_change_text_and_class_witness :
  formatELOChange (mkAIBot "A" "normal" 584 0 1 0 1 0) = "-16"
  /\ getELOChangeClass (mkAIBot "A" "normal" 584 0 1 0 1 0) = "text-red-600"
  /\ formatELOChange (mkAIBot "B" "hard" 616 1 0 0 1 100) = "+16".
Proof.
  destruct (elo_change_text_and_class (mkAIBot "A" "normal" 584 0 1 0 1 0))
    as (_ & _ & Hdown).
  destruct (elo_change_text_and_class (mkAIBot "B" "hard" 616 1 0 0 1 100))
    as (Hup & _).
  destruct Hdown as (_ & Htext & Hclass); [cbn; lia |].
  destruct Hup as [Hplus _]; [cbn; lia |].
  split; [rewrite Htext; reflexivity |].
  split; [exact Hclass | rewrite Hplus; reflexivity].
Defined.

(** ** The start time of the tournament *)

Lemma step_keeps_start_time (i : Input) (s : TournamentState) :
  startTimeUtc s <> "" -> startTimeUtc (step s i) = startTimeUtc s.
Proof.
  intros Hset. destruct i as [t ev | now]; cbn [step].
  - destruct ev; cbn [on_event]; try reflexivity.
    + unfold onMovePlayed. now destruct (currentMatch s).
    + unfold onGameFinished. now destruct (currentMatch s).
    + unfold onTournamentStatusChanged. cbv zeta.
      cbn [startTimeUtc set_status].
      destruct (String.eqb_spec (startTimeUtc s) ""); [contradiction |].
      rewrite andb_false_r. reflexivity.
  - unfold updateCountdown. destruct (currentMatch s); [| reflexivity].
    now destruct (negb _).
Qed.

(** X8.  The start time is stamped once: a status-changed event whose status
    is running stores the current time as start time when none is recorded,
    and once a start time is recorded no push event and no tick changes it,
    whatever the sequence (a later running status after a pause does not
    stamp it again). *)
Theorem start_time_stamped_once :
  (forall (iso : string) (status' : NumberOrString) (message' : string)
          (s : TournamentState),
      startTimeUtc s = "" ->
      mapStatusFromBackend status' = "running" ->
      startTimeUtc (onTournamentStatusChanged iso status' message' s) = iso)
  /\ (forall (iso : string) (status' : NumberOrString) (message' : string)
             (s : TournamentState),
        mapStatusFromBackend status' <> "running" ->
        startTimeUtc (onTournamentStatusChanged iso status' message' s)
        = startTimeUtc s)
  /\ (forall (inputs : list Input) (s : TournamentState),
        startTimeUtc s <> "" ->
        startTimeUtc (run inputs s) = startTimeUtc s).
Proof.
  split; [| split].
  - intros iso status' message' s Hnone Hrun.
    unfold onTournamentStatusChanged. cbv zeta.
    cbn [status startTimeUtc set_status]. rewrite Hrun, Hnone. reflexivity.
  - intros iso status' message' s Hrun.
    unfold onTournamentStatusChanged. cbv zeta.
    cbn [status startTimeUtc set_status].
    destruct (String.eqb_spec (mapStatusFromBackend status') "running");
      [contradiction | reflexivity].
  - induction inputs as [| i rest IH]; intros s Hset; [reflexivity |].
    unfold run in *. cbn [fold_left].
    rewrite IH; rewrite step_keeps_start_time; auto.
Qed.

Lemma start_time_stamped_once_witness :
  startTimeUtc
    (run [Event scenario_instant (OnTournamentStatusChanged (Num 2) "paused");
          Event scenario_instant (OnTournamentStatusChanged (Str "running") "resumed")]
       scenario_running)
  = "2026-01-01T00:00:00.000Z"
  /\ startTimeUtc
       (onTournamentStatusChanged "2026-01-01T00:00:06.000Z" (Num 1) "started"
          scenario_started)
     = "2026-01-01T00:00:06.000Z".
Proof.
  destruct start_time_stamped_once as (Hfirst & _ & Hkept).
  split.
  - rewrite Hkept; [reflexivity | discriminate].
  - apply Hfirst; reflexivity.
Defined.

(** ** The clock tick *)

Lemma floor_twice (r a b : Z) :
  0 <= a -> 0 <= b -> Z.max 0 (Z.max 0 (r - a) - b) = Z.max 0 (r - (a + b)).
Proof. lia. Qed.

(** X9.  With a clock that does not go back, the countdown does not depend
    on how often the timer fires: a tick at [t1] followed by a tick at [t2]
    leaves the state that the tick at [t2] alone would leave. *)
Theorem ticks_compose (t1 t2 : Z) (s : TournamentState) (m : CurrentMatchInfo) :
  currentMatch s = Some m ->
  lastMoveTimestamp m <= t1 ->
  t1 <= t2 ->
  updateCountdown t2 (updateCountdown t1 s) = updateCountdown t2 s.
Proof.
  intros Hlive H1 H2. unfold updateCountdown at 2 3. rewrite Hlive.
  destruct (String.eqb_spec (status s) "running") as [Hrun | Hrun];
    cbn [negb].
  - cbv zeta. unfold updateCountdown.
    cbn [currentMatch set_currentMatch status moveNumber lastMoveTimestamp
           redTimeRemainingMs blueTimeRemainingMs gameId redBotName blueBotName
           redDifficulty blueDifficulty board initialTimeSeconds
           incrementSeconds lastMove lastMoveStats].
    rewrite Hrun. cbn [String.eqb Ascii.eqb Bool.eqb negb].
    unfold set_currentMatch.
    cbn [currentMatch status progress bots matchHistory startTimeUtc endTimeUtc
           elapsed connectionState errorMessage].
    destruct (Z.rem (moveNumber m) 2 =? 0);
      rewrite floor_twice by lia;
      replace (t1 - lastMoveTimestamp m + (t2 - t1))
        with (t2 - lastMoveTimestamp m) by lia;
      reflexivity.
  - unfold updateCountdown. rewrite Hlive.
    destruct (String.eqb_spec (status s) "running"); [contradiction |].
    reflexivity.
Qed.

Lemma ticks_compose_witness :
  updateCountdown 8000 (updateCountdown 7900 scenario_running)
  = updateCountdown 8000 scenario_running.
Proof.
  apply (ticks_compose 7900 8000 scenario_running scenario_match).
  - reflexivity.
  - cbn. lia.
  - lia.
Defined.

(** X10.  A tick only counts down, and only the clocks: when the budgets of
    the live match are not negative and the clock has not gone back, after a
    tick neither budget is larger than before, and the match keeps its
    identity, its players, its move number, its board, its last move and its
    engine statistics; every other field of the state is as before. *)
Theorem tick_only_counts_down (now : Z) (s : TournamentState)
    (m : CurrentMatchInfo) :
  currentMatch s = Some m ->
  clocks_nonnegative m ->
  lastMoveTimestamp m <= now ->
  exists m',
    updateCountdown now s = set_currentMatch (Some m') s
    /\ redTimeRemainingMs m' <= redTimeRemainingMs m
    /\ blueTimeRemainingMs m' <= blueTimeRemainingMs m
    /\ (gameId m', redBotName m', blueBotName m', redDifficulty m',
        blueDifficulty m')
       = (gameId m, redBotName m, blueBotName m, redDifficulty m,
          blueDifficulty m)
    /\ (moveNumber m', board m', lastMove m', lastMoveStats m')
       = (moveNumber m, board m, lastMove m, lastMoveStats m)
    /\ (initialTimeSeconds m', incrementSeconds m')
       = (initialTimeSeconds m, incrementSeconds m).
Proof.
  intros Hlive [Hred Hblue] Hnow. unfold updateCountdown. rewrite Hlive.
  destruct (negb _).
  - exists m. split.
    + destruct s. cbn in Hlive. subst. reflexivity.
    + repeat split; lia.
  - cbv zeta. eexists. split; [reflexivity |].
    cbn [redTimeRemainingMs blueTimeRemainingMs gameId redBotName blueBotName
           redDifficulty blueDifficulty moveNumber board lastMove lastMoveStats
           initialTimeSeconds incrementSeconds].
    destruct (Z.rem (moveNumber m) 2 =? 0); repeat split; lia.
Qed.

Lemma tick_only_counts_down_witness :
  exists m',
    updateCountdown 8000 scenario_running = set_currentMatch (Some m') scenario_running
    /\ redTimeRemainingMs m' <= 420000
    /\ blueTimeRemainingMs m' <= 420000.
Proof.
  destruct (tick_only_counts_down 8000 scenario_running scenario_match)
    as (m' & Htick & Hred & Hblue & _).
  - reflexivity.
  - unfold clocks_nonnegative. cbn. lia.
  - cbn. lia.
  - exists m'. split; [exact Htick |]. split; [exact Hred | exact Hblue].
Defined.

(** ** The board over sequences of events *)

Lemma filter_filter_same {A : Type} (f : A -> bool) (l : list A) :
  filter f (filter f l) = filter f l.
Proof.
  induction l as [| a rest IH]; [reflexivity |].
  cbn [filter]. destruct (f a) eqn:Hfa; [| exact IH].
  cbn [filter]. now rewrite Hfa, IH.
Qed.

Lemma filter_none {A : Type} (f g : A -> bool) (l : list A) :
  (forall a, f a = true -> g a = false) -> filter g (filter f l) = [].
Proof.
  intros Hfg. induction l as [| a rest IH]; [reflexivity |].
  cbn [filter]. destruct (f a) eqn:Hfa; [| exact IH].
  cbn [filter]. now rewrite (Hfg a Hfa).
Qed.

Lemma placed_not_other (moveEvent : MoveEvent.t) (p : string) :
  other_coordinate moveEvent
    (mkBoardCell (MoveEvent.x moveEvent) (MoveEvent.y moveEvent) p) = false.
Proof.
  unfold other_coordinate. cbn [x y]. now rewrite !Z.eqb_refl.
Qed.

(** X11.  A move-played event delivered twice leaves what one delivery
    leaves: the state after the second delivery is the state the event would
    have produced alone at that moment, and the board is the board after the
    first delivery. *)
Theorem move_replay_is_idempotent
    (now1 now2 : Z) (moveEvent : MoveEvent.t) (s : TournamentState) :
  onMovePlayed now2 moveEvent (onMovePlayed now1 moveEvent s)
  = onMovePlayed now2 moveEvent s
  /\ option_map board
       (currentMatch (onMovePlayed now2 moveEvent (onMovePlayed now1 moveEvent s)))
     = option_map board (currentMatch (onMovePlayed now1 moveEvent s)).
Proof.
  assert (Hboard : forall b,
             filter (other_coordinate moveEvent)
               (filter (other_coordinate moveEvent) b
                ++ [mkBoardCell (MoveEvent.x moveEvent) (MoveEvent.y moveEvent)
                      (MoveEvent.player moveEvent)])%list
             = filter (other_coordinate moveEvent) b).
  { intros b. rewrite filter_app, filter_filter_same. cbn [filter].
    rewrite placed_not_other. apply app_nil_r. }
  unfold onMovePlayed. destruct (currentMatch s) as [m |] eqn:Hlive.
  - cbn [currentMatch set_currentMatch]. unfold played, set_currentMatch.
    cbn. rewrite Hboard. split; reflexivity.
  - rewrite !Hlive. split; reflexivity.
Qed.

(** X12.  Whatever the board held before, duplicates included, after a
    move-played event the board has exactly one entry at the coordinate of
    the event, the cell of the event, and it is the last entry of the
    board. *)
Theorem move_leaves_one_entry_at_coordinate
    (now : Z) (moveEvent : MoveEvent.t) (s : TournamentState)
    (m : CurrentMatchInfo) :
  currentMatch s = Some m ->
  exists m',
    currentMatch (onMovePlayed now moveEvent s) = Some m'
    /\ at_coordinate moveEvent (board m')
       = [mkBoardCell (MoveEvent.x moveEvent) (MoveEvent.y moveEvent)
            (MoveEvent.player moveEvent)]
    /\ last (board m') (mkBoardCell 0 0 "")
       = mkBoardCell (MoveEvent.x moveEvent) (MoveEvent.y moveEvent)
           (MoveEvent.player moveEvent)
    /\ (List.length (board m') <= S (List.length (board m)))%nat.
Proof.
  intros Hlive. unfold onMovePlayed. rewrite Hlive.
  eexists. split; [reflexivity |]. cbn [played board].
  split; [| split].
  - unfold at_coordinate. rewrite filter_app.
    rewrite filter_none
      by (intros a Ha; now rewrite Ha).
    cbn [filter app]. now rewrite placed_not_other.
  - apply last_last.
  - rewrite List.length_app. cbn [List.length].
    pose proof (filter_length_le (other_coordinate moveEvent) (board m)). lia.
Qed.

Lemma move_leaves_one_entry_at_coordinate_witness :
  exists m',
    currentMatch
      (onMovePlayed 7000 scenario_replay
         (onMovePlayed 6000 scenario_move scenario_started)) = Some m'
    /\ at_coordinate scenario_replay (board m') = [mkBoardCell 3 4 "blue"].
Proof.
  destruct (move_leaves_one_entry_at_coordinate 7000 scenario_replay
              (onMovePlayed 6000 scenario_move scenario_started)
              (played 6000 scenario_move scenario_match) eq_refl)
    as (m' & Hlive & Hone & _).
  exists m'. split; [exact Hlive | exact Hone].
Defined.

Lemma step_keeps_one_entry (i : Input) (s : TournamentState) :
  (forall m, currentMatch s = Some m -> one_entry_per_coordinate (board m)) ->
  forall m', currentMatch (step s i) = Some m' ->
             one_entry_per_coordinate (board m').
Proof.
  intros Hinv m' Hlive'. destruct i as [t ev | now]; cbn [step] in Hlive'.
  - destruct ev; cbn [on_event] in Hlive'.
    + injection Hlive' as <-. apply NoDup_nil.
    + unfold onMovePlayed in Hlive'.
      destruct (currentMatch s) as [m |] eqn:Hlive; [| now rewrite Hlive in Hlive'].
      injection Hlive' as <-. cbn [played board].
      unfold one_entry_per_coordinate, coordinates.
      rewrite map_app. cbn [map x y]. apply NoDup_app.
      * apply coordinates_filter_NoDup. now apply Hinv.
      * apply NoDup_cons; [intros [] | apply NoDup_nil].
      * intros c Hin [Hc | []]. subst c.
        now apply (coordinates_filter_removed moveEvent (board m)).
    + unfold onGameFinished in Hlive'.
      destruct (currentMatch s) as [m |] eqn:Hlive;
        [| rewrite Hlive in Hlive'; discriminate].
      cbn [currentMatch set_matchHistory] in Hlive'.
      rewrite Hlive in Hlive'. injection Hlive' as <-. now apply Hinv.
    + now apply Hinv.
    + now apply Hinv.
    + unfold onTournamentStatusChanged in Hlive'. cbv zeta in Hlive'.
      destruct (_ && _) in Hlive'; now apply Hinv.
    + now apply Hinv.
  - unfold updateCountdown in Hlive'.
    destruct (currentMatch s) as [m |] eqn:Hlive;
      [| rewrite Hlive in Hlive'; discriminate].
    destruct (negb _) in Hlive'.
    + rewrite Hlive in Hlive'. injection Hlive' as <-. now apply Hinv.
    + cbn [currentMatch set_currentMatch] in Hlive'.
      injection Hlive' as <-. cbn [board]. now apply Hinv.
Qed.

(** X13.  Every board that the push events and the ticks build has at most
    one entry per coordinate: starting from the state of a new store, after
    any sequence of events and ticks the live match, when there is one, has
    no two cells at the same coordinate; more generally the sequence keeps
    that property when the starting state has it. *)
Theorem boards_keep_one_entry_per_coordinate (inputs : list Input) :
  (forall s : TournamentState,
      (forall m, currentMatch s = Some m -> one_entry_per_coordinate (board m)) ->
      forall m', currentMatch (run inputs s) = Some m' ->
                 one_entry_per_coordinate (board m'))
  /\ (forall m', currentMatch (run inputs initial_state) = Some m' ->
                 one_entry_per_coordinate (board m')).
Proof.
  assert (Hrun : forall s : TournamentState,
             (forall m, currentMatch s = Some m ->
                        one_entry_per_coordinate (board m)) ->
             forall m', currentMatch (run inputs s) = Some m' ->
                        one_entry_per_coordinate (board m')).
  { induction inputs as [| i rest IH]; intros s Hinv m' Hlive'.
    - now apply Hinv.
    - unfold run in *. cbn [fold_left] in Hlive'.
      apply (IH (step s i)); [| exact Hlive'].
      now apply step_keeps_one_entry. }
  split; [exact Hrun |].
  apply Hrun. intros m Hm. discriminate.
Qed.

Lemma boards_keep_one_entry_per_coordinate_witness :
  one_entry_per_coordinate
    [mkBoardCell 5 5 "red"; mkBoardCell 3 4 "blue"].
Proof.
  destruct (boards_keep_one_entry_per_coordinate
              [Event scenario_instant (OnGameStarted "g1" "A" "B" "normal" "hard");
               Event scenario_instant (OnMovePlayed scenario_move);
               Event scenario_instant
                 (OnMovePlayed
                    (MoveEvent.mk 2 415000 410000 5 5 "red" None None None None
                       None None None));
               Tick 6500;
               Event scenario_instant (OnMovePlayed scenario_replay)])
    as [_ Hfresh].
  apply (Hfresh
           (played 6000 scenario_replay
              (played 6000
                 (MoveEvent.mk 2 415000 410000 5 5 "red" None None None None
                    None None None)
                 (played 6000 scenario_move
                    (mkCurrentMatchInfo "g1" "A" "B" "normal" "hard" 0 []
                       420000 420000 420 5 None 6000 None))))).
  reflexivity.
Defined.

(** ** Snapshots *)

Lemma fetchState_keeps_store_fields (reply : HttpReply Snapshot.t)
    (this : TournamentStore) :
  connection (fst (fetchState reply this)) = connection this
  /\ reconnectAttempts (fst (fetchState reply this)) = reconnectAttempts this
  /\ countdownInterval (fst (fetchState reply this)) = countdownInterval this.
Proof.
  destruct (fetch_failure_or_snapshot reply) as [[err Hfail] | [data ->]].
  - rewrite (fetchState_failure _ _ err Hfail). repeat split.
  - rewrite fetchState_success. repeat split.
Qed.

Lemma apply_snapshot_overwrites (d1 d2 : Snapshot.t) (s : TournamentState) :
  apply_snapshot d2 (apply_snapshot d1 s) = apply_snapshot d2 s.
Proof. reflexivity. Qed.

(** X14.  The last snapshot wins: after a successful fetch the state is the
    one this snapshot gives on the state before any earlier fetch, whether
    the earlier fetch failed or stored another snapshot; and no fetch changes
    the connection state, the error message or the elapsed-time text. *)
Theorem last_snapshot_wins
    (earlier : HttpReply Snapshot.t) (data : Snapshot.t) (this : TournamentStore) :
  state (fst (fetchState (snapshot_reply data) (fst (fetchState earlier this))))
  = apply_snapshot data (state this)
  /\ connectionState (apply_snapshot data (state this))
     = connectionState (state this)
  /\ errorMessage (apply_snapshot data (state this)) = errorMessage (state this)
  /\ elapsed (apply_snapshot data (state this)) = elapsed (state this).
Proof.
  split; [| repeat split].
  rewrite fetchState_success. unfold assigned, assign. cbn [fst state].
  destruct (fetch_failure_or_snapshot earlier) as [[err Hfail] | [d1 ->]].
  - now rewrite (fetchState_failure _ _ err Hfail).
  - rewrite fetchState_success. unfold assigned, assign. cbn [fst state].
    apply apply_snapshot_overwrites.
Qed.





(** ** The connection *)

Lemma connect_resolved_store (reply : HttpReply Snapshot.t)
    (this : TournamentStore) :
  connection (fst (connect (Resolved tt) reply this)) = Some HubConnected.
Proof.
  destruct (connection this) as [[] |] eqn:Hc;
    try (rewrite connect_start_resolved by congruence;
         cbn [fst];
         destruct (fetchState_keeps_store_fields reply
                     (mkTournamentStore
                        (set_connectionState connected
                           (state (connecting_store this)))
                        (Some HubConnected) 0 (countdownInterval this)
                        (console this))) as (-> & _);
         reflexivity).
  now rewrite connect_already_connected.
Qed.

(** X16.  When the hub starts, [connect] on a store that is not connected
    ends connected, with no error message and the reconnect counter at 0,
    whether the snapshot that follows arrives or not; when the snapshot
    arrives the state holds it.  This holds as well for the attempt that
    follows a failed one: the message of the failure is cleared. *)
Theorem connect_success_connects_and_clears_error
    (reply : HttpReply Snapshot.t) (this : TournamentStore) :
  connection this <> Some HubConnected ->
  let after := fst (connect (Resolved tt) reply this) in
  connectionState (state after) = connected
  /\ errorMessage (state after) = None
  /\ reconnectAttempts after = 0
  /\ connection after = Some HubConnected
  /\ (forall data, reply = snapshot_reply data ->
        state after
        = apply_snapshot data
            (set_connectionState connected (set_errorMessage None (state this))))
  /\ (forall (e : Error) (first : HttpReply Snapshot.t),
        let retried :=
          fst (connect (Resolved tt) reply
                 (fst (connect (Rejected e) first this))) in
        connectionState (state retried) = connected
        /\ errorMessage (state retried) = None).
Proof.
  intros Hc after. subst after.
  assert (Hgen : forall that,
             connection that <> Some HubConnected ->
             connectionState (state (fst (connect (Resolved tt) reply that)))
             = connected
             /\ errorMessage (state (fst (connect (Resolved tt) reply that)))
                = None
             /\ reconnectAttempts (fst (connect (Resolved tt) reply that)) = 0).
  { intros that Hthat. rewrite (connect_start_resolved reply that Hthat).
    cbn [fst].
    set (ready := mkTournamentStore _ _ _ _ _).
    destruct (fetchState_keeps_connection reply ready) as [-> ->].
    destruct (fetchState_keeps_store_fields reply ready) as (_ & -> & _).
    repeat split. }
  destruct (Hgen this Hc) as (Hstate & Hmsg & Hcount).
  split; [exact Hstate |]. split; [exact Hmsg |]. split; [exact Hcount |].
  split; [apply connect_resolved_store |].
  split.
  - intros data ->. rewrite (connect_start_resolved _ this Hc).
    cbn [fst]. rewrite fetchState_success. reflexivity.
  - intros e first retried. subst retried.
    rewrite (connect_start_rejected e first this Hc). cbn [fst].
    destruct (Hgen (assigned
                      (fun s =>
                         set_errorMessage
                           (Some ("Failed to connect: " ++ message e))
                           (set_connectionState disconnected s))
                      (connecting_store this))) as (H1 & H2 & _).
    + discriminate.
    + split; [exact H1 | exact H2].
Qed.

Lemma connect_success_connects_and_clears_error_witness :
  connectionState
    (state (fst (connect (Resolved tt) (NetworkError (mkError "offline"))
                   (fst (connect (Rejected (mkError "refused"))
                           (NetworkError (mkError "offline"))
                           new_TournamentStore)))))
  = connected
  /\ errorMessage
       (state (fst (connect (Resolved tt) (NetworkError (mkError "offline"))
                      (fst (connect (Rejected (mkError "refused"))
                              (NetworkError (mkError "offline"))
                              new_TournamentStore)))))
     = None.
Proof.
  destruct (connect_success_connects_and_clears_error
              (NetworkError (mkError "offline")) new_TournamentStore)
    as (_ & _ & _ & _ & _ & Hretry).
  - discriminate.
  - exact (Hretry (mkError "refused") (NetworkError (mkError "offline"))).
Defined.

(** X17.  [connect] is a no-op on a connected store: after a [connect] whose
    hub started, a second [connect] returns at once and changes nothing,
    whatever the hub or the network would answer; no second snapshot is
    fetched. *)
Theorem second_connect_changes_nothing
    (reply reply' : HttpReply Snapshot.t) (started' : completion unit)
    (this : TournamentStore) :
  connect started' reply' (fst (connect (Resolved tt) reply this))
  = (fst (connect (Resolved tt) reply this), Resolved tt).
Proof.
  apply connect_already_connected, connect_resolved_store.
Qed.

(** X18.  After a [disconnect] that stopped the hub the store has no
    connection and no timer: a second [disconnect] changes nothing and does
    not call the hub, so it cannot fail, and the interval timer no longer
    changes the clocks.  When stopping the hub is rejected the timer is
    cleared all the same, while the connection and the connection state stay
    as they were. *)
Theorem disconnect_is_idempotent_and_stops_the_clock :
  (forall (this : TournamentStore) (stopped' : completion unit) (now : Z),
      let off := fst (disconnect (Resolved tt) this) in
      connection off = None
      /\ countdownInterval off = false
      /\ disconnect stopped' off = (off, Resolved tt)
      /\ interval_fires now off = (off, Resolved tt))
  /\ (forall (e : Error) (this : TournamentStore) (hub : HubConnectionState)
             (now : Z),
        connection this = Some hub ->
        let failed := fst (disconnect (Rejected e) this) in
        state failed = state this
        /\ connection failed = Some hub
        /\ interval_fires now failed = (failed, Resolved tt)).
Proof.
  split.
  - intros this stopped' now off. subst off.
    rewrite disconnect_stop_resolved. cbn [fst].
    split; [reflexivity |]. split; [reflexivity |].
    split; [| reflexivity].
    rewrite disconnect_without_connection by reflexivity. reflexivity.
  - intros e this hub now Hc failed. subst failed.
    rewrite (disconnect_stop_rejected e this hub Hc). cbn [fst].
    repeat split.
Qed.

Lemma disconnect_is_idempotent_and_stops_the_clock_witness :
  connection
    (fst (disconnect (Rejected (mkError "busy"))
            (fst (connect (Resolved tt) (snapshot_reply snapshot_live)
                    new_TournamentStore))))
  = Some HubConnected.
Proof.
  destruct disconnect_is_idempotent_and_stops_the_clock as [_ Hfailed].
  destruct (Hfailed (mkError "busy")
              (fst (connect (Resolved tt) (snapshot_reply snapshot_live)
                      new_TournamentStore))
              HubConnected 0 eq_refl) as (_ & Hc & _).
  exact Hc.
Defined.

(** X19.  A command that succeeds does not clear an earlier error message:
    after [startTournament], [pauseTournament] or [resumeTournament] got a
    success response, the error message and the connection state are the
    ones from before the call, whatever the snapshot fetch did. *)
Theorem successful_command_keeps_error_message
    (body : completion ErrorBody.t) (refresh : HttpReply Snapshot.t)
    (this : TournamentStore) :
  let accepted := Responded (mkResponse true body) in
  (errorMessage (state (fst (startTournament accepted refresh this)))
   = errorMessage (state this)
   /\ connectionState (state (fst (startTournament accepted refresh this)))
      = connectionState (state this))
  /\ (errorMessage (state (fst (pauseTournament accepted refresh this)))
      = errorMessage (state this)
      /\ connectionState (state (fst (pauseTournament accepted refresh this)))
         = connectionState (state this))
  /\ (errorMessage (state (fst (resumeTournament accepted refresh this)))
      = errorMessage (state this)
      /\ connectionState (state (fst (resumeTournament accepted refresh this)))
         = connectionState (state this)).
Proof.
  intros accepted. subst accepted.
  destruct (commands_accepted body refresh this) as (-> & -> & ->).
  cbn [fst].
  destruct (fetchState_keeps_connection refresh this) as [Hc He].
  repeat split; assumption.
Qed.

Lemma nextRetryDelay_value (n : nat) (d : Z) :
  nextRetryDelayInMilliseconds n = Some d ->
  (n < 5)%nat /\ d = Z.min (1000 * 2 ^ Z.of_nat n) 10000.
Proof.
  unfold nextRetryDelayInMilliseconds, maxReconnectAttempts.
  destruct (Z.leb_spec 5 (Z.of_nat n)); [discriminate |].
  intros [= <-]. split; [lia | reflexivity].
Qed.

(** X20.  Every delay of the retry policy lies between one and ten seconds,
    a later retry never waits less than an earlier one, and the delays of a
    whole reconnection add up to 25 seconds. *)
Theorem retry_delays_bounded_and_increasing :
  (forall (n : nat) (d : Z),
      nextRetryDelayInMilliseconds n = Some d ->
      (n < 5)%nat /\ 1000 <= d <= 10000)
  /\ (forall (n n' : nat) (d d' : Z),
        (n <= n')%nat ->
        nextRetryDelayInMilliseconds n = Some d ->
        nextRetryDelayInMilliseconds n' = Some d' ->
        d <= d')
  /\ (forall k : nat, fold_right Z.add 0 (retry_delays (5 + k) 0) = 25000).
Proof.
  split; [| split].
  - intros n d Hd. apply nextRetryDelay_value in Hd as [Hn ->].
    split; [exact Hn |].
    assert (0 < 2 ^ Z.of_nat n) by (apply Z.pow_pos_nonneg; lia).
    lia.
  - intros n n' d d' Hle Hd Hd'.
    apply nextRetryDelay_value in Hd as [_ ->].
    apply nextRetryDelay_value in Hd' as [_ ->].
    assert (2 ^ Z.of_nat n <= 2 ^ Z.of_nat n')
      by (apply Z.pow_le_mono_r; lia).
    lia.
  - intros k. now rewrite retry_delays_schedule.
Qed.

Lemma retry_delays_bounded_and_increasing_witness :
  (3 < 5)%nat /\ 1000 <= 8000 <= 10000.
Proof.
  destruct retry_delays_bounded_and_increasing as (Hbound & _).
  apply (Hbound 3%nat 8000). reflexivity.
Defined.

(** X21.  No push event and no clock tick changes the connection state or
    the error message: after any sequence of them both fields are as
    before. *)
Theorem events_and_ticks_keep_connection_fields
    (inputs : list Input) (s : TournamentState) :
  connectionState (run inputs s) = connectionState s
  /\ errorMessage (run inputs s) = errorMessage s.
Proof.
  revert s. induction inputs as [| i rest IH]; intros s.
  - split; reflexivity.
  - unfold run in *. cbn [fold_left].
    destruct (IH (step s i)) as [-> ->].
    destruct i as [t ev | now]; cbn [step].
    + apply on_event_keeps_connection.
    + apply updateCountdown_keeps_connection.
Qed.

(** X22.  A reconnection resynchronises the store: after the hub announced
    that it reconnects and then that it has reconnected, whatever events and
    ticks came in between, the store is connected with no error message, and
    when the snapshot arrives every field a snapshot carries (status,
    progress, roster, history, live match, start and end time) has the value
    of the snapshot, so what the events changed in between is overwritten. *)
Theorem reconnection_resynchronises
    (error : option Error) (connectionId : option string)
    (inputs : list Input) (data : Snapshot.t) (this : TournamentStore) :
  let back :=
    fst ((onreconnecting error ;; feed_all inputs ;;
          onreconnected connectionId (snapshot_reply data)) this) in
  let fresh := apply_snapshot data initial_state in
  connectionState (state back) = connected
  /\ errorMessage (state back) = None
  /\ connection back = Some HubConnected
  /\ (status (state back), progress (state back), bots (state back),
      matchHistory (state back), currentMatch (state back),
      startTimeUtc (state back), endTimeUtc (state back))
     = (status fresh, progress fresh, bots fresh, matchHistory fresh,
        currentMatch fresh, startTimeUtc fresh, endTimeUtc fresh).
Proof.
  intros back fresh. subst back fresh.
  destruct (onreconnecting_run error this) as (this1 & Hrun1 & _).
  rewrite (bind_run _ _ _ _ _ Hrun1).
  destruct (feed_all_keeps_connection inputs this1) as (Hr & _).
  destruct (feed_all inputs this1) as [this2 r] eqn:Hrun2.
  cbn [snd] in Hr. subst r.
  rewrite (bind_run _ _ _ _ _ Hrun2).
  repeat split.
Qed.

(** ** The clock outside a running tournament *)

Lemma ticks_not_running (ticks : list Z) (s : TournamentState) :
  status s <> "running" -> run (map Tick ticks) s = s.
Proof.
  intros Hrun. induction ticks as [| now rest IH]; [reflexivity |].
  unfold run in *. cbn [map fold_left step].
  now rewrite updateCountdown_not_running.
Qed.

(** X23.  The clocks are frozen outside a running tournament: in a state
    whose status is not running no sequence of ticks changes anything, and
    this is the case after a tournament-completed event and after a
    status-changed event that reports paused, so the budgets and the
    timestamp of the live match stay as the last event left them. *)
Theorem clocks_frozen_when_not_running (ticks : list Z) :
  (forall s : TournamentState,
      status s <> "running" -> run (map Tick ticks) s = s)
  /\ (forall (t : Instant) (finalStandings : list AIBot)
             (totalGames durationMs : Z) (s : TournamentState),
        let done :=
          on_event t (OnTournamentCompleted finalStandings totalGames durationMs) s in
        run (map Tick ticks) done = done)
  /\ (forall (t : Instant) (message' : string) (s : TournamentState),
        let paused :=
          on_event t (OnTournamentStatusChanged (Num 2) message') s in
        run (map Tick ticks) paused = paused).
Proof.
  split; [intros s; apply ticks_not_running |].
  split.
  - intros t finalStandings totalGames durationMs s done. subst done.
    apply ticks_not_running. cbn. discriminate.
  - intros t message' s paused. subst paused.
    apply ticks_not_running. cbn [on_event].
    unfold onTournamentStatusChanged. cbv zeta.
    cbn [status set_status mapStatusFromBackend statusMap index nullish Z.eqb].
    cbn. discriminate.
Qed.

Lemma clocks_frozen_when_not_running_witness :
  run (map Tick [7000; 7100; 7200]) scenario_started = scenario_started.
Proof.
  destruct (clocks_frozen_when_not_running [7000; 7100; 7200]) as (Hidle & _).
  apply Hidle. cbn. discriminate.
Defined.
